(** * create-svelte-lib: the scaffolding command [src/bin.ts]

    A shallow embedding of [packages/create-svelte-lib/src/bin.ts].  The
    script is one asynchronous function, [create], that talks to the
    terminal, the file system, the network and child processes.  Every
    answer the outside gives is a field of the record [World]; the script
    itself is a computation in a small monad that threads the mutable
    module-level variable [cwd] and a counter of spawned processes, records
    every visible action as an [event], and distinguishes normal return,
    [process.exit] and a thrown exception. *)

From Stdlib Require Import String Ascii List ZArith Bool Lia DecimalString.
From ExtLib Require Import Structures.Monad.
Import ListNotations.
Import MonadNotation.
Local Open Scope string_scope.
Local Open Scope monad_scope.
Set Warnings "-register-all".

(** ** Strings *)

(** The double quote, which the script prints inside two of its lines. *)
Definition dq : string := String (ascii_of_nat 34) EmptyString.

(** The line feed of the script's [\n]. *)
Definition nl : string := String (ascii_of_nat 10) EmptyString.

(** [Array.prototype.includes] on an array of strings. *)
Definition includes (l : list string) (x : string) : bool :=
  existsb (String.eqb x) l.

(** [String(n)] for the step counter of the closing instructions. *)
Definition string_of_nat (n : nat) : string :=
  NilZero.string_of_uint (Nat.to_uint n).

Definition string_of_Z (z : Z) : string :=
  NilZero.string_of_int (Z.to_int z).

(** ** JSON documents *)

(** What [JSON.parse] and [response.body.json()] produce.  An object keeps
    its keys in insertion order, as JavaScript does and as
    [JSON.stringify] prints them for keys that are not integer-like (those
    JavaScript lists first, in ascending order); numbers are the integral
    ones of magnitude below 10^21, which JavaScript prints in plain
    decimal. *)
Inductive json : Type :=
| JNull
| JBool (b : bool)
| JNum (z : Z)
| JStr (s : string)
| JArr (items : list json)
| JObj (fields : list (string * json)).

(** Own-property lookup [o[k]] in the field list of an object. *)
Fixpoint lookup {A : Type} (k : string) (fs : list (string * A)) : option A :=
  match fs with
  | [] => None
  | (k', v) :: fs' => if String.eqb k k' then Some v else lookup k fs'
  end.

Definition has_key {A : Type} (k : string) (fs : list (string * A)) : bool :=
  match lookup k fs with Some _ => true | None => false end.

Definition keys {A : Type} (fs : list (string * A)) : list string :=
  map fst fs.

(** The assignment [o[k] = v]: an existing key keeps its place, a new key
    goes last.  This is the order of JavaScript for keys that are not
    integer-like, as package names are. *)
Fixpoint obj_set {A : Type} (k : string) (v : A) (fs : list (string * A))
  : list (string * A) :=
  match fs with
  | [] => [(k, v)]
  | (k', v') :: fs' =>
      if String.eqb k k' then (k', v) :: fs' else (k', v') :: obj_set k v fs'
  end.

(** A JavaScript value read out of a parsed document: a property that is
    absent reads as [undefined]. *)
Inductive jsval : Type :=
| Undefined
| Val (j : json).

(** The property read [packageJson.version].  Reading a property of [null]
    throws a TypeError ([None]); a primitive or an array has no such
    property; an object answers with its own field. *)
Definition get_prop (j : json) (k : string) : option jsval :=
  match j with
  | JNull => None
  | JObj fs =>
      Some (match lookup k fs with Some v => Val v | None => Undefined end)
  | _ => Some Undefined
  end.

(** [ToString], as a template literal applies it.  A parsed object has no
    callable [toString] of its own, so it prints through
    [Object.prototype.toString] unless one of its keys shadows that method,
    in which case the conversion throws ([None]).  An array joins its
    items with commas, [null] items printing as the empty string. *)
Fixpoint to_string (j : json) : option string :=
  match j with
  | JNull => Some "null"
  | JBool true => Some "true"
  | JBool false => Some "false"
  | JNum z => Some (string_of_Z z)
  | JStr s => Some s
  | JArr items =>
      (fix join (l : list json) : option string :=
         match l with
         | [] => Some ""
         | x :: rest =>
             match (match x with JNull => Some "" | _ => to_string x end) with
             | None => None
             | Some sx =>
                 match rest with
                 | [] => Some sx
                 | _ :: _ =>
                     match join rest with
                     | None => None
                     | Some sr => Some (sx ++ "," ++ sr)
                     end
                 end
             end
         end) items
  | JObj fs =>
      if has_key "toString" fs then None else Some "[object Object]"
  end.

Definition val_to_string (v : jsval) : option string :=
  match v with
  | Undefined => Some "undefined"
  | Val j => to_string j
  end.

(** ** The outside world *)

(** What a prompt of [@clack/prompts] resolves to: the cancel symbol or a
    value. *)
Inductive answer (A : Type) : Type :=
| Cancelled
| Answered (a : A).
Arguments Cancelled {A}.
Arguments Answered {A} a.

(** What [fs.existsSync] and [fs.readdirSync] see at a path. *)
Inductive fsnode : Type :=
| FsFile
| FsDir (entries : list string).

(** The reply of [undici]'s [request]: the status code, which the script
    never reads, and the body, [None] when it is not JSON text. *)
Record response : Type := {
  statusCode : Z;
  body : option json
}.

Record World : Type := {
  (** the version in the tool's own [package.json] *)
  version : string;
  (** [process.argv[2]] *)
  argv2 : option string;
  (** [kleur/colors] *)
  bold : string -> string;
  cyan : string -> string;
  grey : string -> string;
  red : string -> string;
  (** the prompts *)
  ask_dir : answer string;
  ask_force : answer bool;
  ask_types : answer string;
  ask_features : answer (list string);
  ask_extras : answer (list string);
  ask_git : answer bool;
  ask_packageManager : answer string;
  ask_install : answer bool;
  (** the file system before the run touches it *)
  fs_at : string -> option fsnode;
  (** [path.basename(path.resolve(dir))] and
      [path.relative(process.cwd(), dir)] *)
  path_name : string -> string;
  path_relative : string -> string;
  (** [createSvelteKitApp]: does it return *)
  generator_ok : bool;
  (** the generated [package.json], [None] when reading or parsing throws *)
  manifest : option json;
  (** [fs.writeFileSync] of the merged manifest: does it return *)
  write_ok : bool;
  (** [request(url)], [None] when the promise rejects *)
  registry : string -> option response;
  (** [copy(templatesDir/name, dest)]: does it resolve *)
  copy_ok : string -> string -> bool;
  (** [execa(cmd, args)]: does the child exit with 0; the first argument
      counts the children spawned before this one *)
  execa_ok : nat -> string -> list string -> bool
}.

(** ** Events *)

Inductive prompt : Type :=
| PDir
| PForce
| PTypes
| PFeatures
| PExtras
| PGit
| PPackageManager
| PInstall (message : string).

(** The options object handed to [createSvelteKitApp]. *)
Record GenOptions : Type := {
  gen_name : string;
  gen_template : string;
  gen_types : option string;
  gen_prettier : bool;
  gen_eslint : bool;
  gen_playwright : bool;
  gen_vitest : bool
}.

Inductive event : Type :=
| EPrint (line : string)
| EIntro (message : string)
| EOutro (message : string)
| EPrompt (p : prompt)
| ENote (message : string) (title : option string)
| ESpinStart (message : string)
| ESpinStop (message : string)
| EGenerate (dir : string) (o : GenOptions)
| EReadFile (dir name : string)
| EWriteFile (dir name : string) (doc : json)
| ERequest (url : string)
| ECopy (template dest : string)
| EExec (cmd : string) (args : list string) (dir : string).

(** ** The monad *)

(** The mutable state: the module-level [cwd] and the number of children
    spawned so far. *)
Record State : Type := {
  cwd : string;
  spawned : nat
}.

(** How a computation ends: with a value, in [process.exit(code)], or with
    a thrown exception (a rejected promise). *)
Inductive outcome (A : Type) : Type :=
| Ret (a : A)
| Exit (code : Z)
| Throw (what : string).
Arguments Ret {A} a.
Arguments Exit {A} code.
Arguments Throw {A} what.

Record Res (A : Type) : Type := mkRes {
  res : outcome A;
  final : State;
  trace : list event
}.
Arguments mkRes {A} res final trace.
Arguments res {A} r.
Arguments final {A} r.
Arguments trace {A} r.

Definition M (A : Type) : Type := State -> Res A.

Definition m_ret {A : Type} (a : A) : M A :=
  fun s => mkRes (Ret a) s [].

Definition m_bind {A B : Type} (m : M A) (f : A -> M B) : M B :=
  fun s =>
    let r := m s in
    match res r with
    | Ret a =>
        let r' := f a (final r) in
        mkRes (res r') (final r') (trace r ++ trace r')
    | Exit c => mkRes (Exit c) (final r) (trace r)
    | Throw e => mkRes (Throw e) (final r) (trace r)
    end.

#[global] Instance Monad_M : Monad M := {
  ret := @m_ret;
  bind := @m_bind
}.

Definition emit (e : event) : M unit :=
  fun s => mkRes (Ret tt) s [e].

(** [process.exit(code)] *)
Definition exit {A : Type} (code : Z) : M A :=
  fun s => mkRes (Exit code) s [].

Definition throw {A : Type} (what : string) : M A :=
  fun s => mkRes (Throw what) s [].

(** [try { body } catch (error) { handler }]: only an exception reaches the
    handler, [process.exit] does not. *)
Definition try_catch {A : Type} (body : M A) (handler : M A) : M A :=
  fun s =>
    let r := body s in
    match res r with
    | Throw _ =>
        let r' := handler (final r) in
        mkRes (res r') (final r') (trace r ++ trace r')
    | _ => r
    end.

Definition get_cwd : M string :=
  fun s => mkRes (Ret (cwd s)) s [].

Definition set_cwd (d : string) : M unit :=
  fun s => mkRes (Ret tt) {| cwd := d; spawned := spawned s |} [].

Definition when (b : bool) (m : M unit) : M unit :=
  if b then m else ret tt.

(** ** Configuration choices *)

(** The object that [p.group] resolves to.  The single-choice answers are
    the [value] strings of the options offered. *)
Record Options : Type := {
  types : string;
  features : list string;
  extras : list string;
  git : bool;
  packageManager : string;
  install : bool
}.

(** The assignment [options.install = b]. *)
Definition set_install (b : bool) (o : Options) : Options :=
  {| types := types o;
     features := features o;
     extras := extras o;
     git := git o;
     packageManager := packageManager o;
     install := b |}.

(** [type Deps = Record<string, { packages: string[] }>] *)
Definition Deps : Type := list (string * list string).

Definition devDeps : Deps :=
  [ ("@changesets/cli",
     ["@changesets/cli"; "@svitejs/changesets-changelog-github-compact"]);
    ("tailwindcss", ["tailwindcss"; "postcss"; "autoprefixer"]) ].

(** ** The Dependency Merger *)

(** Modelled from the spec: [Merger.mergeObjects] of the package
    [json-merger], of which the repository holds only the call.  Section
    4.3: for each key present in either document, if only one side defines
    it, that value is used; if both sides define a mapping at that key,
    merge recursively; if both define a scalar or array, the overlay's
    value wins.  The keys of the base keep their places and the keys that
    only the overlay has follow in the overlay's order. *)
Fixpoint mergeObjects (base overlay : json) : json :=
  match base, overlay with
  | JObj bs, JObj os =>
      JObj
        ((fix merge_fields (l : list (string * json)) : list (string * json) :=
            match l with
            | [] => []
            | (k, v) :: rest =>
                (k, match lookup k os with
                    | Some o => mergeObjects v o
                    | None => v
                    end) :: merge_fields rest
            end) bs
         ++ filter (fun kv => negb (has_key (fst kv) bs)) os)
  | _, _ => overlay
  end.

(** Modelled from the spec: the loop of [mergeObjects] over the fields of
    the base, under a name of its own. *)
Fixpoint merge_fields (os bs : list (string * json)) : list (string * json) :=
  match bs with
  | [] => []
  | (k, v) :: rest =>
      (k, match lookup k os with
          | Some o => mergeObjects v o
          | None => v
          end) :: merge_fields os rest
  end.

(** ** The script *)

Section Script.

Variable w : World.

(** [const print = console.log] *)
Definition print (line : string) : M unit := emit (EPrint line).

(** A prompt is shown and resolves to what the user does with it. *)
Definition ask {A : Type} (p : prompt) (a : answer A) : M (answer A) :=
  emit (EPrompt p) ;; ret a.

(** [await execa(cmd, args, { cwd, stdio: 'ignore' })]: the promise
    rejects when the child cannot be spawned or exits with another code
    than 0. *)
Definition execa (cmd : string) (args : list string) : M unit :=
  fun s =>
    mkRes (if execa_ok w (spawned s) cmd args then Ret tt else Throw "execa")
          {| cwd := cwd s; spawned := S (spawned s) |}
          [EExec cmd args (cwd s)].

(** [await copy(path.join(templatesDir, template), cwd)] *)
Definition copy (template : string) : M unit :=
  d <- get_cwd ;;
  emit (ECopy template d) ;;
  if copy_ok w template d then ret tt else throw "copy".

(** [let cwd = process.argv[2] || '.'] *)
Definition initial_cwd : string :=
  match argv2 w with
  | Some a => if String.eqb a "" then "." else a
  | None => "."
  end.

(** Lines 28 to 37.  The empty answer of [p.text] is the empty string. *)
Definition resolve_cwd : M unit :=
  c <- get_cwd ;;
  if String.eqb c "." then
    dir <- ask PDir (ask_dir w) ;;
    match dir with
    | Cancelled => exit 1
    | Answered d => if String.eqb d "" then ret tt else set_cwd d
    end
  else ret tt.

(** Lines 39 to 49.  [fs.readdirSync] throws on a path that is no
    directory. *)
Definition confirm_gate : M unit :=
  c <- get_cwd ;;
  match fs_at w c with
  | None => ret tt
  | Some FsFile => throw "ENOTDIR"
  | Some (FsDir entries) =>
      if Nat.ltb 0 (List.length entries) then
        force <- ask PForce (ask_force w) ;;
        match force with
        | Answered true => ret tt
        | _ => exit 1
        end
      else ret tt
  end.

(** One question of [p.group], whose [onCancel] is [process.exit(1)]. *)
Definition group_step {A : Type} (p : prompt) (a : answer A) : M A :=
  r <- ask p a ;;
  match r with
  | Cancelled => exit 1
  | Answered x => ret x
  end.

(** Lines 51 to 136. *)
Definition ask_options : M Options :=
  ty <- group_step PTypes (ask_types w) ;;
  fe <- group_step PFeatures (ask_features w) ;;
  ex <- group_step PExtras (ask_extras w) ;;
  gi <- group_step PGit (ask_git w) ;;
  pm <- group_step PPackageManager (ask_packageManager w) ;;
  ins <- group_step (PInstall ("Install dependencies using " ++ pm ++ "?"))
                    (ask_install w) ;;
  ret {| types := ty;
         features := fe;
         extras := ex;
         git := gi;
         packageManager := pm;
         install := ins |}.

(** Lines 140 to 153.  An omitted second argument takes the default
    ['latest']. *)
Definition resolvePackageVersion (packageName : string) (range : option string)
  : M string :=
  let range := match range with Some r => r | None => "latest" end in
  try_catch
    (let url := "https://cdn.jsdelivr.net/npm/" ++ packageName ++ "@" ++ range
                ++ "/package.json" in
     emit (ERequest url) ;;
     match registry w url with
     | None => throw "request"
     | Some response =>
         match body response with
         | None => throw "json"
         | Some packageJson =>
             match get_prop packageJson "version" with
             | None => throw "TypeError"
             | Some v =>
                 match val_to_string v with
                 | None => throw "TypeError"
                 | Some s => ret ("^" ++ s)
                 end
             end
         end
     end)
    (print (bold w (red w ("✘ Failed to resolve package version for "
                           ++ packageName ++ ", using " ++ range
                           ++ " instead"))) ;;
     ret range).

(** Lines 185 to 187: the inner loop of [resolveDeps]. *)
Fixpoint resolve_packages (packages : list string)
    (resolvedDeps : list (string * string)) : M (list (string * string)) :=
  match packages with
  | [] => ret resolvedDeps
  | pkg :: rest =>
      v <- resolvePackageVersion pkg None ;;
      resolve_packages rest (obj_set pkg v resolvedDeps)
  end.

(** Lines 182 to 188: the outer loop of [resolveDeps]. *)
Fixpoint resolve_entries (options : Options) (deps : Deps)
    (resolvedDeps : list (string * string)) : M (list (string * string)) :=
  match deps with
  | [] => ret resolvedDeps
  | (name, packages) :: rest =>
      if negb (includes (extras options) name) then
        resolve_entries options rest resolvedDeps
      else
        r <- resolve_packages packages resolvedDeps ;;
        resolve_entries options rest r
  end.

(** Lines 179 to 191. *)
Definition resolveDeps (options : Options) (deps : Deps)
  : M (list (string * string)) :=
  resolve_entries options deps [].

(** Lines 156 to 166. *)
Definition generate (options : Options) : M unit :=
  d <- get_cwd ;;
  emit (EGenerate d
          {| gen_name := path_name w d;
             gen_template := "skeletonlib";
             gen_types := if String.eqb (types options) "null" then None
                          else Some (types options);
             gen_prettier := includes (features options) "prettier";
             gen_eslint := includes (features options) "eslint";
             gen_playwright := includes (features options) "playwright";
             gen_vitest := includes (features options) "vitest" |}) ;;
  if generator_ok w then ret tt else throw "createSvelteKitApp".

(** Lines 202 to 205. *)
Definition newPackageJson (resolved : list (string * string)) : json :=
  JObj [ ("devDependencies", JObj (map (fun kv => (fst kv, JStr (snd kv))) resolved));
         ("scripts", JObj []) ].

(** Lines 170 to 211. *)
Definition update_manifest (options : Options) : M unit :=
  d <- get_cwd ;;
  emit (EReadFile d "package.json") ;;
  match manifest w with
  | None => throw "package.json"
  | Some svelteKitPkg =>
      emit (ESpinStart "Resolving package versions") ;;
      resolved <- resolveDeps options devDeps ;;
      let mergedPkg := mergeObjects svelteKitPkg (newPackageJson resolved) in
      emit (ESpinStop "Resolved package versions") ;;
      emit (EWriteFile d "package.json" mergedPkg) ;;
      if write_ok w then ret tt else throw "writeFileSync"
  end.

(** Lines 216 to 222. *)
Definition copy_base (options : Options) : M unit :=
  if String.eqb (types options) "typescript" then copy "typescript"
  else copy "javascript".

(** Lines 225 to 238.  The block returns the options object, whose
    [install] it may have cleared. *)
Definition install_step (options : Options) : M Options :=
  let pkgManager := packageManager options in
  if install options then
    try_catch
      (emit (ESpinStart ("Installing dependencies using " ++ pkgManager)) ;;
       execa pkgManager ["install"] ;;
       emit (ESpinStop ("Installed dependencies using " ++ pkgManager)) ;;
       ret options)
      (emit (ESpinStop (red w "Failed to install dependencies")) ;;
       emit (ENote "You can install them manually." None) ;;
       ret (set_install false options))
  else ret options.

(** Lines 240 to 245. *)
Definition git_step (options : Options) : M unit :=
  when (git options)
    (execa "git" ["init"] ;;
     execa "git" ["add"; "-A"] ;;
     execa "git" ["commit"; "-m"; "Initial commit"]).

(** Lines 247 to 261. *)
Definition changesets_step (options : Options) : M unit :=
  when (includes (extras options) "@changesets/cli")
    (try_catch
       (emit (ESpinStart "Initializing changesets") ;;
        execa "npx" ["changeset"; "init"] ;;
        copy "changesets" ;;
        execa "git" ["add"; "-A"] ;;
        execa "git" ["commit"; "-m"; "feat: added changeset"] ;;
        emit (ESpinStop "Initialized changesets"))
       (emit (ESpinStop (red w "Failed to initialize changesets")) ;;
        emit (ENote "npx changeset init"
                    (Some "Initialize changesets manually.")))).

(** Lines 263 to 276. *)
Definition tailwind_step (options : Options) : M unit :=
  when (includes (extras options) "tailwindcss")
    (try_catch
       (emit (ESpinStart "Initializing tailwindcss") ;;
        execa "npx" ["tailwindcss"; "init"; "-p"] ;;
        copy "tailwind" ;;
        execa "git" ["add"; "-A"] ;;
        execa "git" ["commit"; "-m"; "feat: added tailwindcss"] ;;
        emit (ESpinStop "Initialized tailwindcss"))
       (emit (ESpinStop (red w "Failed to initialize tailwindcss")) ;;
        emit (ENote "npx tailwindcss init -p"
                    (Some "Initialize tailwindcss manually.")))).

(** Lines 278 to 322. *)
Definition report (options : Options) : M unit :=
  emit (EOutro "Your project is ready!") ;;
  (if String.eqb (types options) "typescript" then
     print (bold w "✔ Typescript") ;;
     print (cyan w ("  Inside Svelte components, use <script lang=" ++ dq
                    ++ "ts" ++ dq ++ ">" ++ nl))
   else if String.eqb (types options) "checkjs" then
     print (bold w "✔ Type-checked JavaScript") ;;
     print (cyan w ("  https://www.typescriptlang.org/tsconfig#checkJs" ++ nl))
   else ret tt) ;;
  when (includes (features options) "eslint")
    (print (bold w "✔ ESLint") ;;
     print (cyan w ("  https://github.com/sveltejs/eslint-plugin-svelte" ++ nl))) ;;
  when (includes (features options) "prettier")
    (print (bold w "✔ Prettier") ;;
     print (cyan w "  https://prettier.io/docs/en/options.html") ;;
     print (cyan w ("  https://github.com/sveltejs/prettier-plugin-svelte#options"
                    ++ nl))) ;;
  when (includes (features options) "playwright")
    (print (bold w "✔ Playwright") ;;
     print (cyan w ("  https://playwright.dev" ++ nl))) ;;
  when (includes (features options) "vitest")
    (print (bold w "✔ Vitest") ;;
     print (cyan w ("  https://vitest.dev" ++ nl))) ;;
  when (includes (extras options) "@changesets/cli")
    (print (bold w "✔ Changesets") ;;
     print (cyan w ("  https://github.com/changesets/changesets" ++ nl))) ;;
  when (includes (extras options) "tailwindcss")
    (print (bold w "✔ Tailwindcss") ;;
     print (cyan w ("  https://tailwindcss.com/docs" ++ nl))) ;;
  when (git options)
    (print (bold w "✔ Git") ;;
     print (cyan w "  Initialized a git repository.")).

(** The line of one numbered step. *)
Definition step_line (step : nat) (command tail : string) : string :=
  "  " ++ string_of_nat step ++ ": " ++ bold w (cyan w command) ++ tail.

Definition install_line (step : nat) (options : Options) : string :=
  step_line step (packageManager options ++ " install") "".

Definition git_line (step : nat) : string :=
  step_line step
    ("git init && git add -A && git commit -m " ++ dq ++ "Initial commit" ++ dq)
    " (optional)".

(** Lines 324 to 337.  Each optional line takes the next number, [step++]. *)
Definition next_steps (options : Options) : M unit :=
  print (nl ++ "Next steps:") ;;
  d <- get_cwd ;;
  let relative := path_relative w d in
  step <- (if String.eqb relative "" then ret 1
           else print (step_line 1 ("cd " ++ relative) "") ;; ret 2) ;;
  step <- (if negb (install options) then
             print (install_line step options) ;; ret (S step)
           else ret step) ;;
  step <- (if negb (git options) then
             print (git_line step) ;; ret (S step)
           else ret step) ;;
  print (step_line step (packageManager options ++ " run dev -- --open") "") ;;
  print (nl ++ "To close the dev server, hit " ++ bold w (cyan w "Ctrl-C")).

(** What follows the install block, lines 240 to 337. *)
Definition after_install (options : Options) : M unit :=
  git_step options ;;
  changesets_step options ;;
  tailwind_step options ;;
  report options ;;
  next_steps options.

(** What follows the collection of the choices, lines 138 to 337. *)
Definition scaffold (options : Options) : M unit :=
  generate options ;;
  update_manifest options ;;
  copy_base options ;;
  options <- install_step options ;;
  after_install options.

(** Lines 25 to 338: [const create = async () => { ... }]. *)
Definition create : M unit :=
  emit (EIntro "Welcome!") ;;
  resolve_cwd ;;
  confirm_gate ;;
  options <- ask_options ;;
  scaffold options.

(** How the process ends: the promise of [create] resolves and the process
    ends with code 0, [process.exit] was called, or the promise rejects
    with nobody to catch it. *)
Inductive status : Type :=
| Completed
| Exited (code : Z)
| Rejected (what : string).

Definition status_of {A : Type} (o : outcome A) : status :=
  match o with
  | Ret _ => Completed
  | Exit c => Exited c
  | Throw e => Rejected e
  end.

(** The whole module: the banner of line 21, then [create()]. *)
Definition main : M unit :=
  print (grey w (nl ++ "create-svelte-lib version " ++ version w ++ nl)) ;;
  create.

Definition run : Res unit :=
  main {| cwd := initial_cwd; spawned := 0 |}.

End Script.

(** ** Auxiliary definitions *)

Definition registry_url (packageName range : string) : string :=
  "https://cdn.jsdelivr.net/npm/" ++ packageName ++ "@" ++ range
  ++ "/package.json".

Definition range_of (range : option string) : string :=
  match range with Some r => r | None => "latest" end.

Definition warning (w : World) (packageName range : string) : string :=
  bold w (red w ("✘ Failed to resolve package version for " ++ packageName
                 ++ ", using " ++ range ++ " instead")).

(** What the [try] block of [resolvePackageVersion] returns from a reply,
    [None] when it throws. *)
Definition caret_version (reply : option response) : option string :=
  match reply with
  | None => None
  | Some response =>
      match body response with
      | None => None
      | Some packageJson =>
          match get_prop packageJson "version" with
          | None => None
          | Some v =>
              match val_to_string v with
              | None => None
              | Some s => Some ("^" ++ s)
              end
          end
      end
  end.

Definition resolved_version (w : World) (packageName : string)
    (range : option string) : string :=
  match caret_version (registry w (registry_url packageName (range_of range))) with
  | Some v => v
  | None => range_of range
  end.

Definition resolve_events (w : World) (packageName : string)
    (range : option string) : list event :=
  ERequest (registry_url packageName (range_of range))
  :: match caret_version (registry w (registry_url packageName (range_of range))) with
     | Some _ => []
     | None => [EPrint (warning w packageName (range_of range))]
     end.

Definition is_print (e : event) : bool :=
  match e with EPrint _ => true | _ => false end.

Definition is_caret (s : string) : bool :=
  match s with
  | String c _ => Ascii.eqb c "^"%char
  | EmptyString => false
  end.

Definition count_prints (tr : list event) : nat :=
  List.length (filter is_print tr).

(** A reply whose status is outside 200 to 299. *)
Definition non_success (r : response) : bool :=
  negb ((200 <=? statusCode r)%Z && (statusCode r <=? 299)%Z).

(** ** Sample worlds *)

(** A run in which everything outside succeeds: a fresh directory named on
    the command line, every default answer, a registry that knows every
    package at version 1.0.0. *)
Definition sample_manifest : json :=
  JObj [ ("name", JStr "my-app");
         ("version", JStr "0.0.1");
         ("scripts", JObj [("dev", JStr "vite dev")]);
         ("devDependencies", JObj [("svelte", JStr "^4.0.0")]);
         ("type", JStr "module") ].

Definition happy : World :=
  {| version := "0.0.1";
     argv2 := Some "my-app";
     bold := fun s => s;
     cyan := fun s => s;
     grey := fun s => s;
     red := fun s => s;
     ask_dir := Answered "";
     ask_force := Answered false;
     ask_types := Answered "checkjs";
     ask_features := Answered [];
     ask_extras := Answered [];
     ask_git := Answered true;
     ask_packageManager := Answered "npm";
     ask_install := Answered true;
     fs_at := fun _ => None;
     path_name := fun d => d;
     path_relative := fun d => d;
     generator_ok := true;
     manifest := Some sample_manifest;
     write_ok := true;
     registry := fun _ =>
       Some {| statusCode := 200;
               body := Some (JObj [("name", JStr "pkg"); ("version", JStr "1.0.0")]) |};
     copy_ok := fun _ _ => true;
     execa_ok := fun _ _ _ => true |}.

Definition with_registry (f : string -> option response) (w : World) : World :=
  {| version := version w; argv2 := argv2 w;
     bold := bold w; cyan := cyan w; grey := grey w; red := red w;
     ask_dir := ask_dir w; ask_force := ask_force w;
     ask_types := ask_types w; ask_features := ask_features w;
     ask_extras := ask_extras w; ask_git := ask_git w;
     ask_packageManager := ask_packageManager w; ask_install := ask_install w;
     fs_at := fs_at w; path_name := path_name w;
     path_relative := path_relative w; generator_ok := generator_ok w;
     manifest := manifest w; write_ok := write_ok w;
     registry := f;
     copy_ok := copy_ok w; execa_ok := execa_ok w |}.

Definition with_execa (f : nat -> string -> list string -> bool) (w : World)
  : World :=
  {| version := version w; argv2 := argv2 w;
     bold := bold w; cyan := cyan w; grey := grey w; red := red w;
     ask_dir := ask_dir w; ask_force := ask_force w;
     ask_types := ask_types w; ask_features := ask_features w;
     ask_extras := ask_extras w; ask_git := ask_git w;
     ask_packageManager := ask_packageManager w; ask_install := ask_install w;
     fs_at := fs_at w; path_name := path_name w;
     path_relative := path_relative w; generator_ok := generator_ok w;
     manifest := manifest w; write_ok := write_ok w;
     registry := registry w;
     copy_ok := copy_ok w; execa_ok := f |}.

Definition with_choices (ex : list string) (gi : bool) (w : World) : World :=
  {| version := version w; argv2 := argv2 w;
     bold := bold w; cyan := cyan w; grey := grey w; red := red w;
     ask_dir := ask_dir w; ask_force := ask_force w;
     ask_types := ask_types w; ask_features := ask_features w;
     ask_extras := Answered ex; ask_git := Answered gi;
     ask_packageManager := ask_packageManager w; ask_install := ask_install w;
     fs_at := fs_at w; path_name := path_name w;
     path_relative := path_relative w; generator_ok := generator_ok w;
     manifest := manifest w; write_ok := write_ok w;
     registry := registry w;
     copy_ok := copy_ok w; execa_ok := execa_ok w |}.

Definition with_target (arg : option string) (dir : answer string)
    (fs : string -> option fsnode) (force : answer bool) (w : World) : World :=
  {| version := version w; argv2 := arg;
     bold := bold w; cyan := cyan w; grey := grey w; red := red w;
     ask_dir := dir; ask_force := force;
     ask_types := ask_types w; ask_features := ask_features w;
     ask_extras := ask_extras w; ask_git := ask_git w;
     ask_packageManager := ask_packageManager w; ask_install := ask_install w;
     fs_at := fs; path_name := path_name w;
     path_relative := path_relative w; generator_ok := generator_ok w;
     manifest := manifest w; write_ok := write_ok w;
     registry := registry w;
     copy_ok := copy_ok w; execa_ok := execa_ok w |}.

(** The registry cannot be reached. *)
Definition offline : World := with_registry (fun _ => None) happy.

(** The registry answers every request with status 404 and a JSON body
    that has no version. *)
Definition not_found : World :=
  with_registry
    (fun _ => Some {| statusCode := 404;
                      body := Some (JObj [("message", JStr "Not Found")]) |})
    happy.

Definition state0 : State := {| cwd := "my-app"; spawned := 0 |}.

(** The package lists of the entries of [deps] that the user selected, in
    the order of [Object.entries]. *)
Definition selected_packages (options : Options) (deps : Deps) : list string :=
  flat_map (fun d => if includes (extras options) (fst d) then snd d else []) deps.

(** [resolvedDeps[pkg] = v] for each package in turn. *)
Definition assign_versions (w : World) (packages : list string)
    (resolvedDeps : list (string * string)) : list (string * string) :=
  fold_left (fun acc p => obj_set p (resolved_version w p None) acc)
            packages resolvedDeps.

Definition is_request (e : event) : bool :=
  match e with ERequest _ => true | _ => false end.

(** A mapping, as opposed to a scalar or an array. *)
Definition is_mapping (j : json) : bool :=
  match j with JObj _ => true | _ => false end.

(** The fields of the merge of two objects. *)
Definition merged_fields (bs os : list (string * json)) : list (string * json) :=
  (merge_fields os bs ++ filter (fun kv => negb (has_key (fst kv) bs)) os)%list.

(** Two field lists that share no key. *)
Definition disjoint_keys {A : Type} (bs os : list (string * A)) : Prop :=
  forall k, has_key k bs = true -> has_key k os = false.

(** ** The stages of a run *)

(** The state in which the module starts. *)
Definition start (w : World) : State :=
  {| cwd := initial_cwd w; spawned := 0 |}.

(** Lines 21 to 136: everything up to the collected choices. *)
Definition prelude (w : World) : M Options :=
  print (grey w (nl ++ "create-svelte-lib version " ++ version w ++ nl)) ;;
  emit (EIntro "Welcome!") ;;
  resolve_cwd w ;;
  confirm_gate w ;;
  ask_options w.

(** Lines 21 to 222: everything up to the copy of the base templates. *)
Definition before_install (w : World) : M Options :=
  options <- prelude w ;;
  generate w options ;;
  update_manifest w options ;;
  copy_base w options ;;
  ret options.

(** The target directory: [cwd] once lines 28 to 37 have run, if the
    directory prompt was not cancelled. *)
Definition target (w : World) : option string :=
  match res (resolve_cwd w (start w)) with
  | Ret _ => Some (cwd (final (resolve_cwd w (start w))))
  | _ => None
  end.

(** The template set that lines 216 to 222 copy. *)
Definition base_template (ty : string) : string :=
  if String.eqb ty "typescript" then "typescript" else "javascript".

(** ** Kinds of events *)

Definition is_force (e : event) : bool :=
  match e with EPrompt PForce => true | _ => false end.

Definition is_dir_prompt (e : event) : bool :=
  match e with EPrompt PDir => true | _ => false end.

(** The events that write to the disk: the generator, the manifest, the
    template copies and the child processes. *)
Definition mutates (e : event) : bool :=
  match e with
  | EGenerate _ _ | EWriteFile _ _ _ | ECopy _ _ | EExec _ _ _ => true
  | _ => false
  end.

Definition is_base_copy (e : event) : bool :=
  match e with
  | ECopy t _ => String.eqb t "typescript" || String.eqb t "javascript"
  | _ => false
  end.

(** No event of the kind [P] happens in [m], from any state. *)
Definition quiet {A : Type} (P : event -> bool) (m : M A) : Prop :=
  forall s, filter P (trace (m s)) = [].

(** [m] leaves the state as it finds it. *)
Definition stateless {A : Type} (m : M A) : Prop :=
  forall s, final (m s) = s.

(** Lines 39 to 337: what [create] does once the target is known. *)
Definition after_target (w : World) : M unit :=
  confirm_gate w ;;
  options <- ask_options w ;;
  scaffold w options.

(** The banner of line 21. *)
Definition banner (w : World) : string :=
  grey w (nl ++ "create-svelte-lib version " ++ version w ++ nl).

(** The command line names the directory [.], the prompt is answered. *)
Definition dot_argument : World :=
  with_target (Some ".") (Answered "elsewhere") (fun _ => None)
              (Answered false) happy.

(** No argument, and the directory prompt is cancelled. *)
Definition cancelled_prompt : World :=
  with_target None Cancelled (fun _ => None) (Answered false) happy.

(** The target holds a file and the user declines to go on. *)
Definition occupied : World :=
  with_target (Some "my-app") (Answered "")
              (fun d => if String.eqb d "my-app" then Some (FsDir ["README.md"])
                        else None)
              (Answered false) happy.

(** ** The steps after the templates *)

Definition is_child (e : event) : bool :=
  match e with EExec _ _ _ => true | _ => false end.

Definition is_copy (e : event) : bool :=
  match e with ECopy _ _ => true | _ => false end.

Definition is_outro (e : event) : bool :=
  match e with EOutro _ => true | _ => false end.

(** [m] returns, from any state: no exit, nothing thrown. *)
Definition returns {A : Type} (m : M A) : Prop :=
  forall s, exists a, res (m s) = Ret a.

(** What one extra's block does (lines 250 to 260 and 265 to 275), as a
    function of how its two children, its copy and its commit end: the
    events, and the number of children spawned. *)
Definition extra_events (w : World) (s : State)
    (starting : string) (init : list string) (template commit stopped : string)
    (failed note : string) (title : string) : list event :=
  let d := cwd s in
  let n := spawned s in
  let fail := [ESpinStop failed; ENote note (Some title)] in
  ESpinStart starting :: EExec "npx" init d
  :: (if execa_ok w n "npx" init then
        ECopy template d
        :: (if copy_ok w template d then
              EExec "git" ["add"; "-A"] d
              :: (if execa_ok w (S n) "git" ["add"; "-A"] then
                    EExec "git" ["commit"; "-m"; commit] d
                    :: (if execa_ok w (S (S n)) "git" ["commit"; "-m"; commit]
                        then [ESpinStop stopped] else fail)
                  else fail)
            else fail)
      else fail).

Definition extra_spawned (w : World) (s : State) (init : list string)
    (template : string) : nat :=
  let n := spawned s in
  if execa_ok w n "npx" init then
    if copy_ok w template (cwd s) then
      if execa_ok w (S n) "git" ["add"; "-A"] then 3 + n else 2 + n
    else 1 + n
  else 1 + n.

(** The lines that lines 324 to 337 print. *)
Definition next_steps_lines (w : World) (options : Options) (d : string)
  : list string :=
  let relative := path_relative w d in
  let k1 := if String.eqb relative "" then 1 else 2 in
  let k2 := if install options then k1 else S k1 in
  let k3 := if git options then k2 else S k2 in
  let heading := nl ++ "Next steps:" in
  let cd := step_line w 1 ("cd " ++ relative) "" in
  let dev := step_line w k3 (packageManager options ++ " run dev -- --open") "" in
  let closing := nl ++ "To close the dev server, hit " ++ bold w (cyan w "Ctrl-C") in
  (heading
   :: (if String.eqb relative "" then [] else [cd])
   ++ (if install options then [] else [install_line w k1 options])
   ++ (if git options then [] else [git_line w k2])
   ++ [dev; closing])%list.

(** [git] cannot be run. *)
Definition git_missing : World :=
  with_execa (fun _ cmd _ => negb (String.eqb cmd "git")) happy.

(** Every child fails: neither the package manager nor [git] can be run. *)
Definition no_children : World :=
  with_execa (fun _ _ _ => false) happy.

(** The package manager fails, [git] works. *)
Definition install_fails : World :=
  with_execa (fun _ cmd _ => negb (String.eqb cmd "npm")) happy.

(** Only tailwindcss is selected and git is declined, in a directory in
    which [git add] and [git commit] work, as inside a repository. *)
Definition tailwind_in_repository : World :=
  with_choices ["tailwindcss"] false happy.

(** The same choices where [git] finds no repository. *)
Definition tailwind_no_repository : World :=
  with_choices ["tailwindcss"] false git_missing.

Definition is_note (e : event) : bool :=
  match e with ENote _ _ => true | _ => false end.

(** What lines 225 to 238 print and run when the install child fails. *)
Definition install_failure_events (w : World) (options : Options) (d : string)
  : list event :=
  [ ESpinStart ("Installing dependencies using " ++ packageManager options);
    EExec (packageManager options) ["install"] d;
    ESpinStop (red w "Failed to install dependencies");
    ENote "You can install them manually." None ].

(** The three children of lines 242 to 244 all exit with 0, the first of
    them being child number [n]. *)
Definition git_children_ok (w : World) (n : nat) : bool :=
  execa_ok w n "git" ["init"]
  && execa_ok w (S n) "git" ["add"; "-A"]
  && execa_ok w (S (S n)) "git" ["commit"; "-m"; "Initial commit"].

(** [git] cannot be run, and an extra is selected. *)
Definition git_missing_with_extra : World :=
  with_choices ["tailwindcss"] true git_missing.

(** ** Further kinds of events and of computations *)

(** [m] never calls [process.exit]. *)
Definition never_exits {A : Type} (m : M A) : Prop :=
  forall s c, res (m s) <> Exit c.

(** Every [process.exit] of [m] is with the code [code]. *)
Definition exits_only {A : Type} (code : Z) (m : M A) : Prop :=
  forall s c, res (m s) = Exit c -> c = code.

Definition is_prompt (e : event) : bool :=
  match e with EPrompt _ => true | _ => false end.

Definition is_generate (e : event) : bool :=
  match e with EGenerate _ _ => true | _ => false end.

Definition is_write (e : event) : bool :=
  match e with EWriteFile _ _ _ => true | _ => false end.

Definition is_spin_start (e : event) : bool :=
  match e with ESpinStart _ => true | _ => false end.

Definition is_spin_stop (e : event) : bool :=
  match e with ESpinStop _ => true | _ => false end.

(** A child run with the single argument [install]. *)
Definition is_install_child (e : event) : bool :=
  match e with
  | EExec _ [a] _ => String.eqb a "install"
  | _ => false
  end.

(** What the run does once the generator has been called: reading and
    writing the manifest, asking the registry, copying, spawning. *)
Definition follows_generator (e : event) : bool :=
  match e with
  | EReadFile _ _ | EWriteFile _ _ _ | ERequest _ | ECopy _ _ | EExec _ _ _
  | ESpinStart _ | ESpinStop _ | ENote _ _ | EOutro _ => true
  | _ => false
  end.

(** What the run does once the base templates have been copied. *)
Definition follows_templates (e : event) : bool :=
  match e with
  | EExec _ _ _ | ENote _ _ | EOutro _ => true
  | _ => false
  end.

(** The directory an event acts in, for the events that act in one. *)
Definition event_dir (e : event) : option string :=
  match e with
  | EGenerate d _ | EReadFile d _ | EWriteFile d _ _ | ECopy _ d | EExec _ _ d =>
      Some d
  | _ => None
  end.

Definition in_dir (d : string) (e : event) : bool :=
  match event_dir e with
  | Some d' => String.eqb d' d
  | None => true
  end.

(** [m] keeps [cwd] and acts in no other directory. *)
Definition confined {A : Type} (m : M A) : Prop :=
  forall s,
    cwd (final (m s)) = cwd s
    /\ forallb (in_dir (cwd s)) (trace (m s)) = true.

(** The six questions of [p.group], in their order; the last one names the
    package manager chosen in the fifth. *)
Definition questions (pm : string) : list event :=
  [ EPrompt PTypes; EPrompt PFeatures; EPrompt PExtras; EPrompt PGit;
    EPrompt PPackageManager;
    EPrompt (PInstall ("Install dependencies using " ++ pm ++ "?")) ].

(** The number of questions of [p.group] answered before the first
    cancel. *)
Definition answered_before_cancel (w : World) : nat :=
  match ask_types w with
  | Cancelled => 0
  | Answered _ =>
  match ask_features w with
  | Cancelled => 1
  | Answered _ =>
  match ask_extras w with
  | Cancelled => 2
  | Answered _ =>
  match ask_git w with
  | Cancelled => 3
  | Answered _ =>
  match ask_packageManager w with
  | Cancelled => 4
  | Answered _ =>
  match ask_install w with
  | Cancelled => 5
  | Answered _ => 6
  end end end end end end.

(** The answer given to the package-manager question, ['npm'] standing in
    when there is none, as in the message of the install question. *)
Definition chosen_manager (w : World) : string :=
  match ask_packageManager w with
  | Answered pm => pm
  | Cancelled => "npm"
  end.

Definition with_answers (ty : answer string) (fe ex : answer (list string))
    (gi : answer bool) (pm : answer string) (ins : answer bool) (w : World)
  : World :=
  {| version := version w; argv2 := argv2 w;
     bold := bold w; cyan := cyan w; grey := grey w; red := red w;
     ask_dir := ask_dir w; ask_force := ask_force w;
     ask_types := ty; ask_features := fe;
     ask_extras := ex; ask_git := gi;
     ask_packageManager := pm; ask_install := ins;
     fs_at := fs_at w; path_name := path_name w;
     path_relative := path_relative w; generator_ok := generator_ok w;
     manifest := manifest w; write_ok := write_ok w;
     registry := registry w;
     copy_ok := copy_ok w; execa_ok := execa_ok w |}.

Definition with_outcomes (gen : bool) (m : option json) (wr : bool)
    (cp : string -> string -> bool) (w : World) : World :=
  {| version := version w; argv2 := argv2 w;
     bold := bold w; cyan := cyan w; grey := grey w; red := red w;
     ask_dir := ask_dir w; ask_force := ask_force w;
     ask_types := ask_types w; ask_features := ask_features w;
     ask_extras := ask_extras w; ask_git := ask_git w;
     ask_packageManager := ask_packageManager w; ask_install := ask_install w;
     fs_at := fs_at w; path_name := path_name w;
     path_relative := path_relative w; generator_ok := gen;
     manifest := m; write_ok := wr;
     registry := registry w;
     copy_ok := cp; execa_ok := execa_ok w |}.

(** The git question is cancelled. *)
Definition cancelled_at_git : World :=
  with_answers (Answered "typescript") (Answered ["eslint"]) (Answered [])
               Cancelled (Answered "pnpm") (Answered true) happy.

(** The target is a file, not a directory. *)
Definition target_is_file : World :=
  with_target (Some "my-app") (Answered "")
              (fun d => if String.eqb d "my-app" then Some FsFile else None)
              (Answered true) happy.

(** The generator throws. *)
Definition generator_fails : World :=
  with_outcomes false (Some sample_manifest) true (fun _ _ => true) happy.

(** The base templates cannot be copied. *)
Definition base_copy_fails : World :=
  with_outcomes true (Some sample_manifest) true
                (fun t _ => negb (String.eqb t "javascript")) happy.

(** The options object of lines 158 to 166, for the choices [options] and
    the directory [d]. *)
Definition generator_options (w : World) (options : Options) (d : string)
  : GenOptions :=
  {| gen_name := path_name w d;
     gen_template := "skeletonlib";
     gen_types := if String.eqb (types options) "null" then None
                  else Some (types options);
     gen_prettier := includes (features options) "prettier";
     gen_eslint := includes (features options) "eslint";
     gen_playwright := includes (features options) "playwright";
     gen_vitest := includes (features options) "vitest" |}.

(** The document that line 211 writes, for the manifest [m] read at line
    172 and the choices [options]. *)
Definition merged_manifest (w : World) (options : Options) (m : json) : json :=
  mergeObjects m
    (newPackageJson (assign_versions w (selected_packages options devDeps) [])).

(** What the run does once the manifest has been read. *)
Definition follows_manifest (e : event) : bool :=
  match e with
  | EWriteFile _ _ _ | ERequest _ | ECopy _ _ | EExec _ _ _
  | ESpinStart _ | ESpinStop _ | ENote _ _ | EOutro _ => true
  | _ => false
  end.

(** The generated manifest cannot be read. *)
Definition manifest_missing : World :=
  with_outcomes true None true (fun _ _ => true) happy.

(** The commands the closing instructions list for the choices [options]
    in the directory [d], each with what follows it on its line: the [cd]
    when the target is not the current directory, the install when it was
    not done, the git commands when git was declined, and the dev server. *)
Definition manual_steps (w : World) (options : Options) (d : string)
  : list (string * string) :=
  let cd := ("cd " ++ path_relative w d, "") in
  let inst := (packageManager options ++ " install", "") in
  let vcs := ("git init && git add -A && git commit -m " ++ dq
              ++ "Initial commit" ++ dq, " (optional)") in
  let dev := (packageManager options ++ " run dev -- --open", "") in
  ((if String.eqb (path_relative w d) "" then [] else [cd])
   ++ (if install options then [] else [inst])
   ++ (if git options then [] else [vcs])
   ++ [dev])%list.

(** The first and the last line of the closing instructions. *)
Definition steps_heading : string := nl ++ "Next steps:".

Definition steps_closing (w : World) : string :=
  nl ++ "To close the dev server, hit " ++ bold w (cyan w "Ctrl-C").

(** The lines of a list of commands, numbered from [first] on. *)
Fixpoint numbered (w : World) (first : nat) (steps : list (string * string))
  : list string :=
  match steps with
  | [] => []
  | (command, tail) :: rest =>
      step_line w first command tail :: numbered w (S first) rest
  end.

(** All four steps of an extra's block succeed, the first child being
    child number [n]. *)
Definition extra_ok (w : World) (s : State) (init : list string)
    (template commit : string) : bool :=
  execa_ok w (spawned s) "npx" init
  && copy_ok w template (cwd s)
  && execa_ok w (S (spawned s)) "git" ["add"; "-A"]
  && execa_ok w (S (S (spawned s))) "git" ["commit"; "-m"; commit].

(** Both extras are selected, git is declined and [git] finds no
    repository. *)
Definition both_extras_no_repository : World :=
  with_choices ["@changesets/cli"; "tailwindcss"] false git_missing.

(** Both extras are selected, with git, and every child succeeds except
    the init of changesets. *)
Definition changeset_init_fails : World :=
  with_choices ["@changesets/cli"; "tailwindcss"] true
    (with_execa (fun _ _ args => negb (includes args "changeset")) happy).

(** The event acts in some directory. *)
Definition has_dir (e : event) : bool :=
  match event_dir e with Some _ => true | None => false end.

(** [m] stops as many spinners as it starts, however it ends. *)
Definition balanced {A : Type} (m : M A) : Prop :=
  forall s,
    List.length (filter is_spin_start (trace (m s)))
    = List.length (filter is_spin_stop (trace (m s))).

(** What a run does only before it spawns its first child: the prompts,
    the generator, the manifest, the registry and the base templates. *)
Definition precedes_children (e : event) : bool :=
  match e with
  | EIntro _ | EPrompt _ | EGenerate _ _ | EReadFile _ _ | EWriteFile _ _ _
  | ERequest _ => true
  | ECopy t _ => String.eqb t "typescript" || String.eqb t "javascript"
  | _ => false
  end.

(** Every question is answered, none with the default: TypeScript, two
    features, one extra, no git, pnpm, no install. *)
Definition custom_answers : World :=
  with_answers (Answered "typescript") (Answered ["eslint"; "vitest"])
               (Answered ["tailwindcss"]) (Answered false) (Answered "pnpm")
               (Answered false) happy.

(** ** Running computations *)

Lemma bind_run {A B : Type} (m : M A) (f : A -> M B) (s : State) :
  bind m f s =
  match res (m s) with
  | Ret a =>
      mkRes (res (f a (final (m s)))) (final (f a (final (m s))))
            (trace (m s) ++ trace (f a (final (m s))))
  | Exit c => mkRes (Exit c) (final (m s)) (trace (m s))
  | Throw e => mkRes (Throw e) (final (m s)) (trace (m s))
  end.
Proof. reflexivity. Qed.

Lemma bind_of_ret {A B : Type} (m : M A) (f : A -> M B) s a s' t :
  m s = mkRes (Ret a) s' t ->
  bind m f s = mkRes (res (f a s')) (final (f a s')) (t ++ trace (f a s')).
Proof. intros H. rewrite bind_run, H. reflexivity. Qed.

Lemma bind_of_exit {A B : Type} (m : M A) (f : A -> M B) s c s' t :
  m s = mkRes (Exit c) s' t -> bind m f s = mkRes (Exit c) s' t.
Proof. intros H. rewrite bind_run, H. reflexivity. Qed.

Lemma bind_of_throw {A B : Type} (m : M A) (f : A -> M B) s e s' t :
  m s = mkRes (Throw e) s' t -> bind m f s = mkRes (Throw e) s' t.
Proof. intros H. rewrite bind_run, H. reflexivity. Qed.

Lemma res_eta {A : Type} (r : Res A) : mkRes (res r) (final r) (trace r) = r.
Proof. destruct r. reflexivity. Qed.

(** ** The Version Resolver *)

(** The resolver as a function of the reply: it returns in every case and
    leaves the state alone. *)
Lemma resolvePackageVersion_run w packageName range s :
  resolvePackageVersion w packageName range s =
  mkRes (Ret (resolved_version w packageName range)) s
        (resolve_events w packageName range).
Proof.
  unfold resolvePackageVersion, resolved_version, resolve_events, caret_version,
    registry_url, warning, try_catch.
  cbn.
  destruct (registry w _) as [response|]; cbn; [|reflexivity].
  destruct (body response) as [packageJson|]; cbn; [|reflexivity].
  destruct (get_prop packageJson "version") as [v|]; cbn; [|reflexivity].
  destruct (val_to_string v); reflexivity.
Qed.


(** C2, as stated, fails: a reply with a non-success status is no failure
    for the resolver when its body is JSON.  Here the registry answers 404
    with a JSON body; the resolver prints nothing and returns
    ["^undefined"], not the range. *)
Lemma resolver_ignores_status :
  (exists reply,
      registry not_found (registry_url "no-such-package" "1.x") = Some reply
      /\ non_success reply = true)
  /\ res (resolvePackageVersion not_found "no-such-package" (Some "1.x") state0)
     = Ret "^undefined"
  /\ count_prints
       (trace (resolvePackageVersion not_found "no-such-package" (Some "1.x") state0))
     = 0
  /\ ~ (res (resolvePackageVersion not_found "no-such-package" (Some "1.x") state0)
        = Ret "1.x"
        /\ count_prints
             (trace (resolvePackageVersion not_found "no-such-package" (Some "1.x")
                       state0)) = 1).
Proof.
  split; [|split; [|split]].
  - eexists. split; reflexivity.
  - reflexivity.
  - reflexivity.
  - intros [H _]. discriminate H.
Qed.

(** C2, amended.  For every package name and range the resolver returns
    (it never throws) and leaves the state as it was.  When the request is
    rejected, or the body is not JSON, or is the JSON [null], it prints
    exactly one warning and returns the range it was given.  The status of
    the reply is not read: a reply whose body is an object with a string
    [version] gives that version behind a caret, without a warning.  In
    every case the result is the range with one warning, or a string that
    starts with a caret with none. *)
Theorem resolvePackageVersion_total w packageName range s :
  let rg := range_of range in
  let url := registry_url packageName rg in
  let r := resolvePackageVersion w packageName range s in
  (exists v, res r = Ret v)
  /\ final r = s
  /\ ((registry w url = None
       \/ exists reply, registry w url = Some reply
                        /\ (body reply = None \/ body reply = Some JNull)) ->
      res r = Ret rg
      /\ trace r = [ERequest url; EPrint (warning w packageName rg)])
  /\ (forall reply fs v,
         registry w url = Some reply ->
         body reply = Some (JObj fs) ->
         lookup "version" fs = Some (JStr v) ->
         res r = Ret ("^" ++ v) /\ trace r = [ERequest url])
  /\ ((res r = Ret rg /\ count_prints (trace r) = 1)
      \/ (exists v, res r = Ret v /\ is_caret v = true
                    /\ count_prints (trace r) = 0)).
Proof.
  intros rg url r. subst r.
  rewrite resolvePackageVersion_run. cbn [res final trace].
  unfold resolved_version, resolve_events. fold rg. fold url.
  split; [eexists; reflexivity|].
  split; [reflexivity|].
  split; [|split].
  - intros [H|[reply [H [Hb|Hb]]]]; rewrite H; cbn; try rewrite Hb; cbn;
      split; reflexivity.
  - intros reply fs v H Hb Hv. rewrite H. cbn. rewrite Hb. cbn. rewrite Hv.
    cbn. split; reflexivity.
  - destruct (caret_version (registry w url)) as [v|] eqn:E.
    + right. exists v. split; [reflexivity|]. split; [|reflexivity].
      unfold caret_version in E.
      destruct (registry w url) as [reply|]; [|discriminate].
      destruct (body reply) as [j|]; [|discriminate].
      destruct (get_prop j "version") as [x|]; [|discriminate].
      destruct (val_to_string x); [|discriminate].
      injection E as <-. reflexivity.
    + left. split; reflexivity.
Qed.

Lemma resolvePackageVersion_total_witness :
  res (resolvePackageVersion offline "postcss" None state0) = Ret "latest"
  /\ trace (resolvePackageVersion offline "postcss" None state0)
     = [ERequest "https://cdn.jsdelivr.net/npm/postcss@latest/package.json";
        EPrint "✘ Failed to resolve package version for postcss, using latest instead"]
  /\ res (resolvePackageVersion happy "postcss" None state0) = Ret "^1.0.0".
Proof.
  pose proof (resolvePackageVersion_total offline "postcss" None state0) as H.
  cbv zeta in H. destruct H as (_ & _ & H & _).
  destruct (H (or_introl eq_refl)) as [H1 H2].
  split; [exact H1|]. split; [exact H2|].
  pose proof (resolvePackageVersion_total happy "postcss" None state0) as G.
  cbv zeta in G. destruct G as (_ & _ & _ & G & _).
  exact (proj1 (G _ _ "1.0.0" eq_refl eq_refl eq_refl)).
Defined.

(** C9.  The resolver does not look at the shape of the parsed body: when
    the body is JSON other than [null] and has no [version] field, the
    success path returns ["^undefined"] and no warning is printed, whatever
    the range was. *)
Theorem resolver_no_shape_validation w packageName range s reply j :
  registry w (registry_url packageName (range_of range)) = Some reply ->
  body reply = Some j ->
  j <> JNull ->
  (forall fs, j = JObj fs -> lookup "version" fs = None) ->
  res (resolvePackageVersion w packageName range s) = Ret "^undefined"
  /\ trace (resolvePackageVersion w packageName range s)
     = [ERequest (registry_url packageName (range_of range))].
Proof.
  intros H Hb Hn Hv.
  rewrite resolvePackageVersion_run. cbn [res trace].
  unfold resolved_version, resolve_events. rewrite H. cbn. rewrite Hb.
  destruct j as [|b|z|x|items|fs]; try (cbn; split; reflexivity).
  - contradiction.
  - cbn. rewrite (Hv fs eq_refl). cbn. split; reflexivity.
Qed.

Lemma resolver_no_shape_validation_witness :
  res (resolvePackageVersion not_found "postcss" None state0) = Ret "^undefined"
  /\ trace (resolvePackageVersion not_found "postcss" None state0)
     = [ERequest "https://cdn.jsdelivr.net/npm/postcss@latest/package.json"].
Proof.
  apply (resolver_no_shape_validation not_found "postcss" None state0
           {| statusCode := 404;
              body := Some (JObj [("message", JStr "Not Found")]) |}
           (JObj [("message", JStr "Not Found")])).
  - reflexivity.
  - reflexivity.
  - discriminate.
  - intros fs E. injection E as <-. reflexivity.
Defined.

(** ** Resolving the dependencies of the selected extras *)

Lemma resolve_packages_run w packages :
  forall resolvedDeps s,
    resolve_packages w packages resolvedDeps s =
    mkRes (Ret (assign_versions w packages resolvedDeps)) s
          (flat_map (fun p => resolve_events w p None) packages).
Proof.
  induction packages as [|pkg rest IH]; intros acc s.
  - reflexivity.
  - cbn [resolve_packages].
    erewrite bind_of_ret by apply resolvePackageVersion_run.
    rewrite IH. reflexivity.
Qed.

Lemma resolve_entries_run w options deps :
  forall resolvedDeps s,
    resolve_entries w options deps resolvedDeps s =
    mkRes (Ret (assign_versions w (selected_packages options deps) resolvedDeps))
          s
          (flat_map (fun p => resolve_events w p None)
                    (selected_packages options deps)).
Proof.
  induction deps as [|[name packages] rest IH]; intros acc s.
  - reflexivity.
  - cbn [resolve_entries selected_packages flat_map fst snd].
    destruct (includes (extras options) name); cbn [negb].
    + erewrite bind_of_ret by apply resolve_packages_run.
      rewrite IH. cbn [res final trace].
      unfold assign_versions, selected_packages.
      rewrite fold_left_app, flat_map_app. reflexivity.
    + rewrite IH. reflexivity.
Qed.

Lemma resolveDeps_run w options deps s :
  resolveDeps w options deps s =
  mkRes (Ret (assign_versions w (selected_packages options deps) [])) s
        (flat_map (fun p => resolve_events w p None)
                  (selected_packages options deps)).
Proof. apply resolve_entries_run. Qed.

Lemma lookup_tabulate {A : Type} (f : string -> A) p l v :
  lookup p (map (fun q => (q, f q)) l) = Some v -> v = f p.
Proof.
  induction l as [|q l IH]; cbn; [discriminate|].
  destruct (String.eqb_spec p q) as [->|_]; [|exact IH].
  intros E. injection E as <-. reflexivity.
Qed.

Lemma filter_request_resolve_events w l :
  filter is_request (flat_map (fun p => resolve_events w p None) l)
  = map (fun p => ERequest (registry_url p "latest")) l.
Proof.
  induction l as [|p l IH]; [reflexivity|].
  cbn [flat_map map]. rewrite filter_app, IH.
  unfold resolve_events. cbn [range_of].
  destruct (caret_version _); reflexivity.
Qed.

(** C8.  For every selection of extras, [resolveDeps(devDeps)] returns the
    map whose keys are the packages of the selected extras, in order:
    the two changesets packages when ['@changesets/cli'] is selected, then
    the three tailwind packages when ['tailwindcss'] is, and nothing else.
    One request is made per key, each for the range ['latest'], so a
    package whose resolution fails gets exactly the string ['latest'].
    The overlay carries this map as its [devDependencies]. *)
Theorem resolveDeps_devDeps w options s :
  let selected :=
    ((if includes (extras options) "@changesets/cli"
      then ["@changesets/cli"; "@svitejs/changesets-changelog-github-compact"]
      else [])
     ++ (if includes (extras options) "tailwindcss"
         then ["tailwindcss"; "postcss"; "autoprefixer"]
         else []))%list in
  let r := resolveDeps w options devDeps s in
  exists resolved,
    res r = Ret resolved
    /\ final r = s
    /\ keys resolved = selected
    /\ filter is_request (trace r)
       = map (fun p => ERequest (registry_url p "latest")) selected
    /\ (forall p v, lookup p resolved = Some v ->
          v = resolved_version w p None
          /\ (caret_version (registry w (registry_url p "latest")) = None ->
              v = "latest"))
    /\ newPackageJson resolved
       = JObj [ ("devDependencies",
                 JObj (map (fun p => (p, JStr (resolved_version w p None)))
                           selected));
                ("scripts", JObj []) ].
Proof.
  intros selected r.
  exists (map (fun p => (p, resolved_version w p None)) selected).
  subst r. rewrite resolveDeps_run. cbn [res final trace].
  assert (Hsel : selected_packages options devDeps = selected).
  { unfold selected_packages, devDeps. cbn [flat_map fst snd].
    rewrite app_nil_r. reflexivity. }
  rewrite Hsel.
  assert (Hmap : assign_versions w selected []
                 = map (fun p => (p, resolved_version w p None)) selected).
  { subst selected.
    destruct (includes (extras options) "@changesets/cli");
      destruct (includes (extras options) "tailwindcss"); reflexivity. }
  split; [now rewrite Hmap|].
  split; [reflexivity|].
  split.
  { unfold keys. rewrite map_map. cbn [fst]. apply map_id. }
  split; [apply filter_request_resolve_events|].
  split.
  - intros p v Hl. apply lookup_tabulate in Hl. split; [exact Hl|].
    intros Hc. subst v. unfold resolved_version. cbn [range_of].
    rewrite Hc. reflexivity.
  - unfold newPackageJson. rewrite map_map. reflexivity.
Qed.

Lemma resolveDeps_devDeps_witness :
  exists resolved,
    res (resolveDeps offline
           {| types := "checkjs"; features := []; extras := ["tailwindcss"];
              git := true; packageManager := "npm"; install := true |}
           devDeps state0) = Ret resolved
    /\ keys resolved = ["tailwindcss"; "postcss"; "autoprefixer"]
    /\ (forall v, lookup "postcss" resolved = Some v -> v = "latest").
Proof.
  destruct (resolveDeps_devDeps offline
              {| types := "checkjs"; features := []; extras := ["tailwindcss"];
                 git := true; packageManager := "npm"; install := true |}
              state0) as (resolved & H1 & _ & H3 & _ & H5 & _).
  exists resolved. split; [exact H1|]. split; [exact H3|].
  intros v E. exact (proj2 (H5 "postcss" v E) eq_refl).
Defined.

(** ** Composing computations *)

Lemma bind_assoc {A B C : Type} (m : M A) (f : A -> M B) (g : B -> M C) s :
  bind (bind m f) g s = bind m (fun a => bind (f a) g) s.
Proof.
  cbn. unfold m_bind. cbn.
  destruct (res (m s)) as [a|c|e]; cbn; [|reflexivity|reflexivity].
  destruct (res (f a (final (m s)))) as [b|c|e]; cbn;
    [rewrite app_assoc|..]; reflexivity.
Qed.

Lemma res_bind {A B : Type} (m : M A) (f : A -> M B) s :
  res (bind m f s) =
  match res (m s) with
  | Ret a => res (f a (final (m s)))
  | Exit c => Exit c
  | Throw e => Throw e
  end.
Proof. rewrite bind_run. destruct (res (m s)); reflexivity. Qed.

Lemma final_bind {A B : Type} (m : M A) (f : A -> M B) s :
  final (bind m f s) =
  match res (m s) with
  | Ret a => final (f a (final (m s)))
  | _ => final (m s)
  end.
Proof. rewrite bind_run. destruct (res (m s)); reflexivity. Qed.

Lemma trace_bind {A B : Type} (m : M A) (f : A -> M B) s :
  trace (bind m f s) =
  (trace (m s) ++ match res (m s) with
                  | Ret a => trace (f a (final (m s)))
                  | _ => []
                  end)%list.
Proof.
  rewrite bind_run.
  destruct (res (m s)); cbn [trace]; rewrite ?app_nil_r; reflexivity.
Qed.

(** *** Computations without events of a kind *)

Section Quiet.

Variable P : event -> bool.

Lemma quiet_ret {A : Type} (a : A) : quiet P (ret a).
Proof. intros s. reflexivity. Qed.

Lemma quiet_exit {A : Type} c : quiet P (@exit A c).
Proof. intros s. reflexivity. Qed.

Lemma quiet_throw {A : Type} e : quiet P (@throw A e).
Proof. intros s. reflexivity. Qed.

Lemma quiet_get_cwd : quiet P get_cwd.
Proof. intros s. reflexivity. Qed.

Lemma quiet_set_cwd d : quiet P (set_cwd d).
Proof. intros s. reflexivity. Qed.

Lemma quiet_emit e : P e = false -> quiet P (emit e).
Proof. intros H s. cbn. rewrite H. reflexivity. Qed.

Lemma quiet_bind {A B : Type} (m : M A) (f : A -> M B) :
  quiet P m -> (forall a, quiet P (f a)) -> quiet P (bind m f).
Proof.
  intros Hm Hf s. rewrite trace_bind, filter_app, Hm.
  destruct (res (m s)); [apply Hf|reflexivity|reflexivity].
Qed.

Lemma quiet_try_catch {A : Type} (body handler : M A) :
  quiet P body -> quiet P handler -> quiet P (try_catch body handler).
Proof.
  intros Hb Hh s. unfold try_catch.
  destruct (res (body s)); [apply Hb|apply Hb|].
  cbn [trace]. rewrite filter_app, Hb, Hh. reflexivity.
Qed.

Lemma quiet_when b (m : M unit) : quiet P m -> quiet P (when b m).
Proof. intros H. destruct b; [exact H|apply quiet_ret]. Qed.

Lemma quiet_execa w cmd args :
  (forall d, P (EExec cmd args d) = false) -> quiet P (execa w cmd args).
Proof. intros H s. cbn. rewrite H. reflexivity. Qed.

Lemma quiet_resolveDeps w options deps :
  (forall u, P (ERequest u) = false) ->
  (forall l, P (EPrint l) = false) ->
  quiet P (resolveDeps w options deps).
Proof.
  intros Hr Hp s. rewrite resolveDeps_run. cbn [trace].
  induction (selected_packages options deps) as [|p l IH]; [reflexivity|].
  cbn [flat_map]. rewrite filter_app, IH, app_nil_r.
  unfold resolve_events. cbn [filter]. rewrite Hr.
  destruct (caret_version _); cbn [filter]; rewrite ?Hp; reflexivity.
Qed.

End Quiet.

(** *** Computations that leave the state alone *)

Lemma stateless_ret {A : Type} (a : A) : stateless (ret a).
Proof. intros s. reflexivity. Qed.

Lemma stateless_exit {A : Type} c : stateless (@exit A c).
Proof. intros s. reflexivity. Qed.

Lemma stateless_throw {A : Type} e : stateless (@throw A e).
Proof. intros s. reflexivity. Qed.

Lemma stateless_emit e : stateless (emit e).
Proof. intros s. reflexivity. Qed.

Lemma stateless_get_cwd : stateless get_cwd.
Proof. intros s. reflexivity. Qed.

Lemma stateless_bind {A B : Type} (m : M A) (f : A -> M B) :
  stateless m -> (forall a, stateless (f a)) -> stateless (bind m f).
Proof.
  intros Hm Hf s. rewrite final_bind.
  destruct (res (m s)); [rewrite Hf|..]; apply Hm.
Qed.

(** ** The Dependency Merger *)

Section AssocLists.

Context {A : Type}.
Implicit Types (k : string) (l : list (string * A)).

Lemma lookup_app k l1 l2 :
  lookup k (l1 ++ l2) =
  match lookup k l1 with Some v => Some v | None => lookup k l2 end.
Proof.
  induction l1 as [|[k' v] l1 IH]; cbn; [reflexivity|].
  destruct (String.eqb k k'); [reflexivity|exact IH].
Qed.

Lemma lookup_filter_key (f : string -> bool) k l :
  lookup k (filter (fun kv => f (fst kv)) l) = if f k then lookup k l else None.
Proof.
  induction l as [|[k' v] l IH]; cbn [filter lookup fst].
  - destruct (f k); reflexivity.
  - destruct (String.eqb_spec k k') as [->|Hne].
    + destruct (f k'); cbn [lookup].
      * rewrite String.eqb_refl. reflexivity.
      * rewrite IH. reflexivity.
    + destruct (f k'); cbn [lookup].
      * rewrite (proj2 (String.eqb_neq k k') Hne). exact IH.
      * exact IH.
Qed.

Lemma has_key_In k v l : In (k, v) l -> has_key k l = true.
Proof.
  unfold has_key.
  induction l as [|[k' v'] l IH]; cbn; [contradiction|].
  intros [E|H].
  - injection E as -> ->. rewrite String.eqb_refl. reflexivity.
  - destruct (String.eqb k k'); [reflexivity|exact (IH H)].
Qed.

Lemma has_key_tail k k' v l :
  has_key k l = true -> has_key k ((k', v) :: l) = true.
Proof.
  unfold has_key. cbn. destruct (String.eqb k k'); [reflexivity|trivial].
Qed.

Lemma filter_all (f : string * A -> bool) l :
  (forall x, In x l -> f x = true) -> filter f l = l.
Proof.
  induction l as [|x l IH]; intros H; cbn; [reflexivity|].
  rewrite (H x (or_introl eq_refl)), IH; [reflexivity|].
  intros y Hy. apply H. right. exact Hy.
Qed.

End AssocLists.

Lemma mergeObjects_objects bs os :
  mergeObjects (JObj bs) (JObj os) = JObj (merged_fields bs os).
Proof.
  unfold merged_fields. cbn [mergeObjects]. do 2 f_equal.
  induction bs as [|[k v] bs IH]; [reflexivity|].
  cbn [merge_fields]. rewrite <- IH. reflexivity.
Qed.

Lemma lookup_merge_fields k os bs :
  lookup k (merge_fields os bs) =
  match lookup k bs with
  | Some v => Some (match lookup k os with
                    | Some o => mergeObjects v o
                    | None => v
                    end)
  | None => None
  end.
Proof.
  induction bs as [|[k' v] bs IH]; cbn [merge_fields lookup]; [reflexivity|].
  destruct (String.eqb_spec k k') as [->|_]; [reflexivity|exact IH].
Qed.

Lemma lookup_merged_fields k bs os :
  lookup k (merged_fields bs os) =
  match lookup k bs with
  | Some v => Some (match lookup k os with
                    | Some o => mergeObjects v o
                    | None => v
                    end)
  | None => lookup k os
  end.
Proof.
  unfold merged_fields.
  rewrite lookup_app, lookup_merge_fields.
  destruct (lookup k bs) as [v|] eqn:E; [reflexivity|].
  rewrite (lookup_filter_key (fun k => negb (has_key k bs))).
  unfold has_key. rewrite E. reflexivity.
Qed.

Lemma merge_fields_disjoint bs os :
  disjoint_keys bs os -> merge_fields os bs = bs.
Proof.
  induction bs as [|[k v] bs IH]; intros H; cbn [merge_fields]; [reflexivity|].
  assert (Hk : lookup k os = None).
  { specialize (H k). unfold has_key in H. cbn in H.
    rewrite String.eqb_refl in H. specialize (H eq_refl).
    destruct (lookup k os); [discriminate|reflexivity]. }
  rewrite Hk, IH; [reflexivity|].
  intros k' Hk'. apply H. apply has_key_tail. exact Hk'.
Qed.

Lemma merged_fields_disjoint bs os :
  disjoint_keys bs os -> merged_fields bs os = (bs ++ os)%list.
Proof.
  intros H. unfold merged_fields.
  rewrite (merge_fields_disjoint bs os H). f_equal.
  apply filter_all. intros [k v] Hin. cbn [fst].
  destruct (has_key k bs) eqn:E; [|reflexivity].
  pose proof (H k E) as Hos.
  rewrite (has_key_In k v os Hin) in Hos. discriminate Hos.
Qed.

(** C6.  The merge of two objects is an object, whatever they hold.  At
    each key: a key that only one side defines keeps that side's value, a
    key at which both sides hold a mapping holds their merge, a key at
    which both hold a scalar or an array holds the overlay's value.  Two
    objects without a common key merge to the base's fields followed by the
    overlay's.  With the overlay of the script, every key of the base other
    than [devDependencies] and [scripts] keeps its value. *)
Theorem mergeObjects_keys bs os k :
  exists fs,
    mergeObjects (JObj bs) (JObj os) = JObj fs
    /\ (lookup k os = None -> lookup k fs = lookup k bs)
    /\ (lookup k bs = None -> lookup k fs = lookup k os)
    /\ (forall b o,
          lookup k bs = Some (JObj b) -> lookup k os = Some (JObj o) ->
          lookup k fs = Some (mergeObjects (JObj b) (JObj o)))
    /\ (forall v o,
          lookup k bs = Some v -> lookup k os = Some o ->
          is_mapping v = false -> is_mapping o = false ->
          lookup k fs = Some o)
    /\ (disjoint_keys bs os -> fs = (bs ++ os)%list)
    /\ (forall resolved,
          k <> "devDependencies" -> k <> "scripts" ->
          exists fs',
            mergeObjects (JObj bs) (newPackageJson resolved) = JObj fs'
            /\ lookup k fs' = lookup k bs).
Proof.
  exists (merged_fields bs os).
  split; [apply mergeObjects_objects|].
  split; [|split; [|split; [|split; [|split]]]].
  - intros H. rewrite lookup_merged_fields, H.
    destruct (lookup k bs); reflexivity.
  - intros H. rewrite lookup_merged_fields, H. reflexivity.
  - intros b o Hb Ho. rewrite lookup_merged_fields, Hb, Ho. reflexivity.
  - intros v o Hb Ho Hv Hm. rewrite lookup_merged_fields, Hb, Ho.
    destruct v; try discriminate Hv; reflexivity.
  - apply merged_fields_disjoint.
  - intros resolved H1 H2. unfold newPackageJson.
    eexists. split; [apply mergeObjects_objects|].
    rewrite lookup_merged_fields. cbn [lookup].
    rewrite (proj2 (String.eqb_neq _ _) H1), (proj2 (String.eqb_neq _ _) H2).
    destruct (lookup k bs); reflexivity.
Qed.

Lemma mergeObjects_keys_witness :
  exists fs,
    mergeObjects sample_manifest
      (JObj [("devDependencies", JObj [("postcss", JStr "^8.0.0")]);
             ("version", JStr "1.0.0");
             ("license", JStr "MIT")]) = JObj fs
    /\ lookup "name" fs = Some (JStr "my-app")
    /\ lookup "license" fs = Some (JStr "MIT")
    /\ lookup "version" fs = Some (JStr "1.0.0")
    /\ lookup "devDependencies" fs
       = Some (JObj [("svelte", JStr "^4.0.0"); ("postcss", JStr "^8.0.0")]).
Proof.
  destruct (mergeObjects_keys
              [ ("name", JStr "my-app"); ("version", JStr "0.0.1");
                ("scripts", JObj [("dev", JStr "vite dev")]);
                ("devDependencies", JObj [("svelte", JStr "^4.0.0")]);
                ("type", JStr "module") ]
              [ ("devDependencies", JObj [("postcss", JStr "^8.0.0")]);
                ("version", JStr "1.0.0");
                ("license", JStr "MIT") ]
              "name") as (fs & E & H1 & _).
  exists fs. split; [exact E|].
  split; [exact (H1 eq_refl)|].
  injection E as <-. repeat split; reflexivity.
Defined.

(** ** Automation for event-free stages *)

Ltac quiet_step :=
  match goal with
  | |- quiet _ (bind _ _) => apply quiet_bind; [|intro]
  | |- quiet _ (ret _) => apply quiet_ret
  | |- quiet _ (exit _) => apply quiet_exit
  | |- quiet _ (throw _) => apply quiet_throw
  | |- quiet _ get_cwd => apply quiet_get_cwd
  | |- quiet _ (set_cwd _) => apply quiet_set_cwd
  | |- quiet _ (emit _) => apply quiet_emit; first [reflexivity | solve [auto]]
  | |- quiet _ (try_catch _ _) => apply quiet_try_catch
  | |- quiet _ (when _ _) => apply quiet_when
  | |- quiet _ (execa _ _ _) =>
      apply quiet_execa; intro; first [reflexivity | solve [auto]]
  | |- quiet _ (resolveDeps _ _ _) =>
      apply quiet_resolveDeps; intro; first [reflexivity | solve [auto]]
  | |- quiet _ (if ?b then _ else _) => destruct b
  | |- quiet _ (match ?x with _ => _ end) => destruct x
  end.

Ltac quiet_auto := cbv zeta; repeat quiet_step.

Ltac stateless_step :=
  match goal with
  | |- stateless (bind _ _) => apply stateless_bind; [|intro]
  | |- stateless (ret _) => apply stateless_ret
  | |- stateless (exit _) => apply stateless_exit
  | |- stateless (throw _) => apply stateless_throw
  | |- stateless get_cwd => apply stateless_get_cwd
  | |- stateless (emit _) => apply stateless_emit
  | |- stateless (if ?b then _ else _) => destruct b
  | |- stateless (match ?x with _ => _ end) => destruct x
  end.

Ltac stateless_auto := cbv zeta; repeat stateless_step.

(** ** The target directory *)

Lemma resolve_cwd_run w s :
  resolve_cwd w s =
  if String.eqb (cwd s) "." then
    match ask_dir w with
    | Cancelled => mkRes (Exit 1) s [EPrompt PDir]
    | Answered d =>
        mkRes (Ret tt)
              (if String.eqb d "" then s else {| cwd := d; spawned := spawned s |})
              [EPrompt PDir]
    end
  else mkRes (Ret tt) s [].
Proof.
  unfold resolve_cwd, ask. cbn. unfold m_bind. cbn.
  destruct (String.eqb (cwd s) "."); [|reflexivity].
  destruct (ask_dir w) as [|d]; cbn; [reflexivity|].
  destruct (String.eqb d ""); reflexivity.
Qed.

Lemma confirm_gate_run w s :
  confirm_gate w s =
  match fs_at w (cwd s) with
  | None | Some (FsDir []) => mkRes (Ret tt) s []
  | Some FsFile => mkRes (Throw "ENOTDIR") s []
  | Some (FsDir (_ :: _)) =>
      mkRes (match ask_force w with Answered true => Ret tt | _ => Exit 1 end)
            s [EPrompt PForce]
  end.
Proof.
  unfold confirm_gate, ask. cbn. unfold m_bind. cbn.
  destruct (fs_at w (cwd s)) as [[|[|e es]]|]; cbn; try reflexivity.
  destruct (ask_force w) as [|[|]]; reflexivity.
Qed.

Lemma ask_options_stateless w : stateless (ask_options w).
Proof. unfold ask_options, group_step, ask. stateless_auto. Qed.

Lemma ask_options_quiet_force w : quiet is_force (ask_options w).
Proof. unfold ask_options, group_step, ask. quiet_auto. Qed.

Lemma ask_options_quiet_dir w : quiet is_dir_prompt (ask_options w).
Proof. unfold ask_options, group_step, ask. quiet_auto. Qed.

Lemma ask_options_quiet_mutates w : quiet mutates (ask_options w).
Proof. unfold ask_options, group_step, ask. quiet_auto. Qed.

Ltac unfold_stages :=
  unfold scaffold, after_install, generate, update_manifest, copy_base,
    install_step, git_step, changesets_step, tailwind_step, report,
    next_steps, copy, print.

Lemma scaffold_quiet_force w options : quiet is_force (scaffold w options).
Proof. unfold_stages. quiet_auto. Qed.

Lemma scaffold_quiet_dir w options : quiet is_dir_prompt (scaffold w options).
Proof. unfold_stages. quiet_auto. Qed.

(** The run, cut at the moment the target is known. *)
Lemma run_unfold w :
  run w =
  (print (banner w) ;; emit (EIntro "Welcome!") ;; resolve_cwd w ;;
   after_target w) (start w).
Proof. reflexivity. Qed.

Lemma run_trace w :
  trace (run w) =
  EPrint (banner w) :: EIntro "Welcome!"
  :: (trace (resolve_cwd w (start w))
      ++ match res (resolve_cwd w (start w)) with
         | Ret _ => trace (after_target w (final (resolve_cwd w (start w))))
         | _ => []
         end)%list.
Proof.
  rewrite run_unfold. unfold print.
  rewrite trace_bind. cbn [emit trace res final app].
  rewrite trace_bind. cbn [emit trace res final app].
  rewrite trace_bind. reflexivity.
Qed.

Lemma run_res w :
  res (run w) =
  match res (resolve_cwd w (start w)) with
  | Ret _ => res (after_target w (final (resolve_cwd w (start w))))
  | Exit c => Exit c
  | Throw e => Throw e
  end.
Proof.
  rewrite run_unfold. unfold print.
  rewrite res_bind. cbn [emit trace res final].
  rewrite res_bind. cbn [emit trace res final].
  rewrite res_bind. reflexivity.
Qed.

Lemma after_target_trace w s :
  trace (after_target w s) =
  (trace (confirm_gate w s)
   ++ match res (confirm_gate w s) with
      | Ret _ => trace ((options <- ask_options w ;; scaffold w options) s)
      | _ => []
      end)%list.
Proof.
  unfold after_target. rewrite trace_bind.
  assert (H : final (confirm_gate w s) = s).
  { rewrite confirm_gate_run.
    destruct (fs_at w (cwd s)) as [[|[|e es]]|]; reflexivity. }
  rewrite H. reflexivity.
Qed.

Lemma after_target_quiet_dir w : quiet is_dir_prompt (after_target w).
Proof.
  unfold after_target. apply quiet_bind.
  - intros s. rewrite confirm_gate_run.
    destruct (fs_at w (cwd s)) as [[|[|e es]]|]; reflexivity.
  - intros _. apply quiet_bind; [apply ask_options_quiet_dir|].
    intros o. apply scaffold_quiet_dir.
Qed.

Lemma collected_quiet_force w :
  quiet is_force (options <- ask_options w ;; scaffold w options).
Proof.
  apply quiet_bind; [apply ask_options_quiet_force|].
  intros o. apply scaffold_quiet_force.
Qed.

Lemma initial_cwd_argument w a :
  argv2 w = Some a -> a <> "" -> a <> "." -> initial_cwd w = a.
Proof.
  intros H H1 _. unfold initial_cwd. rewrite H.
  rewrite (proj2 (String.eqb_neq a "") H1). reflexivity.
Qed.

Lemma initial_cwd_default w :
  argv2 w = None \/ argv2 w = Some "" \/ argv2 w = Some "." ->
  initial_cwd w = ".".
Proof.
  unfold initial_cwd. intros [H|[H|H]]; rewrite H; reflexivity.
Qed.

Lemma run_dir_prompts w :
  filter is_dir_prompt (trace (run w))
  = filter is_dir_prompt (trace (resolve_cwd w (start w))).
Proof.
  rewrite run_trace. cbn [filter is_dir_prompt]. rewrite filter_app.
  destruct (res (resolve_cwd w (start w)));
    [rewrite after_target_quiet_dir|..]; apply app_nil_r.
Qed.

(** C10, as stated, fails: an argument is supplied, the directory [.], and
    the prompt is shown all the same; its answer, not the argument, becomes
    the target. *)
Lemma dot_argument_is_prompted :
  argv2 dot_argument = Some "."
  /\ filter is_dir_prompt (trace (run dot_argument)) = [EPrompt PDir]
  /\ target dot_argument = Some "elsewhere"
  /\ ~ (filter is_dir_prompt (trace (run dot_argument)) = []
        /\ target dot_argument = Some ".").
Proof.
  split; [reflexivity|]. split; [reflexivity|]. split; [reflexivity|].
  intros [H _]. discriminate H.
Qed.

(** C10, amended.  When the command line names a directory other than [.]
    (and not the empty string), the directory prompt is not shown anywhere
    in the run and the argument is the target.  When there is no argument,
    or it is [.] or empty, the prompt is shown once: a cancel exits with
    code 1, a non-empty answer becomes the target, and an empty answer
    leaves the target at [.]. *)
Theorem resolve_cwd_target w :
  (forall a,
      argv2 w = Some a -> a <> "" -> a <> "." ->
      filter is_dir_prompt (trace (run w)) = [] /\ target w = Some a)
  /\ (argv2 w = None \/ argv2 w = Some "" \/ argv2 w = Some "." ->
      filter is_dir_prompt (trace (run w)) = [EPrompt PDir]
      /\ (ask_dir w = Cancelled ->
          res (run w) = Exit 1 /\ target w = None
          /\ trace (run w) = [EPrint (banner w); EIntro "Welcome!"; EPrompt PDir])
      /\ (forall d, ask_dir w = Answered d -> d <> "" -> target w = Some d)
      /\ (ask_dir w = Answered "" -> target w = Some ".")).
Proof.
  split.
  - intros a Ha H1 H2.
    rewrite run_dir_prompts. unfold target.
    rewrite resolve_cwd_run. cbn [start cwd].
    rewrite (initial_cwd_argument w a Ha H1 H2).
    rewrite (proj2 (String.eqb_neq a ".") H2). cbn [res final trace start cwd].
    rewrite (initial_cwd_argument w a Ha H1 H2). split; reflexivity.
  - intros Ha.
    rewrite run_dir_prompts, run_res, run_trace. unfold target.
    rewrite resolve_cwd_run. cbn [start cwd spawned].
    rewrite (initial_cwd_default w Ha). cbn [String.eqb Ascii.eqb Bool.eqb].
    split; [destruct (ask_dir w); reflexivity|].
    split; [|split].
    + intros ->. repeat split; reflexivity.
    + intros d -> Hd. cbn [res final].
      rewrite (proj2 (String.eqb_neq d "") Hd). reflexivity.
    + intros ->. cbn. rewrite (initial_cwd_default w Ha). reflexivity.
Qed.

Lemma resolve_cwd_target_witness :
  (filter is_dir_prompt (trace (run happy)) = [] /\ target happy = Some "my-app")
  /\ res (run cancelled_prompt) = Exit 1%Z
  /\ target dot_argument = Some "elsewhere".
Proof.
  split; [|split].
  - apply (proj1 (resolve_cwd_target happy) "my-app");
      [reflexivity|discriminate|discriminate].
  - apply (proj2 (resolve_cwd_target cancelled_prompt) (or_introl eq_refl)).
    reflexivity.
  - apply (proj2 (resolve_cwd_target dot_argument)
             (or_intror (or_intror eq_refl))).
    + reflexivity.
    + discriminate.
Defined.

(** ** The confirmation gate *)

Lemma resolve_cwd_quiet P w :
  P (EPrompt PDir) = false -> quiet P (resolve_cwd w).
Proof.
  intros H s. rewrite resolve_cwd_run.
  destruct (String.eqb (cwd s) "."); [|reflexivity].
  destruct (ask_dir w); cbn; rewrite H; reflexivity.
Qed.

Lemma target_some w t :
  target w = Some t ->
  res (resolve_cwd w (start w)) = Ret tt
  /\ cwd (final (resolve_cwd w (start w))) = t.
Proof.
  unfold target.
  destruct (res (resolve_cwd w (start w))) as [[]|c|e]; [|discriminate..].
  intros E. injection E as <-. split; reflexivity.
Qed.

(** C4.  Let [t] be the target directory of a run.  When [t] does not exist
    or is an empty directory, the prompt "Directory not empty. Continue?"
    is not shown at any point of the run.  When [t] is a directory with at
    least one entry, the prompt is shown, once; and unless the answer is
    yes (so on no and on cancel) the process exits with code 1 and the run
    has called neither the generator nor a file write, a template copy or
    a child process. *)
Theorem confirm_gate_prompt w t :
  target w = Some t ->
  (fs_at w t = None \/ fs_at w t = Some (FsDir []) ->
   filter is_force (trace (run w)) = [])
  /\ (forall e es,
        fs_at w t = Some (FsDir (e :: es)) ->
        filter is_force (trace (run w)) = [EPrompt PForce]
        /\ (ask_force w <> Answered true ->
            res (run w) = Exit 1 /\ filter mutates (trace (run w)) = [])).
Proof.
  intros Ht. apply target_some in Ht. destruct Ht as [Hres Hcwd].
  rewrite run_trace, run_res, Hres, after_target_trace.
  unfold after_target. rewrite res_bind.
  rewrite confirm_gate_run, Hcwd.
  cbn [filter is_force mutates]. rewrite !filter_app.
  rewrite (resolve_cwd_quiet is_force w eq_refl).
  rewrite (resolve_cwd_quiet mutates w eq_refl).
  split.
  - intros [H|H]; rewrite H; cbn [trace res app filter];
      apply collected_quiet_force.
  - intros e es H. rewrite H. cbn [trace res app filter is_force].
    rewrite ?filter_app.
    rewrite ?(resolve_cwd_quiet is_force w eq_refl (start w)).
    rewrite ?(resolve_cwd_quiet mutates w eq_refl (start w)).
    cbn [app filter is_force mutates].
    split.
    + destruct (ask_force w) as [|[|]]; cbn [app]; try reflexivity.
      rewrite collected_quiet_force. reflexivity.
    + intros Hno.
      destruct (ask_force w) as [|[|]]; try (split; reflexivity).
      contradiction Hno. reflexivity.
Qed.

Lemma confirm_gate_prompt_witness :
  filter is_force (trace (run happy)) = []
  /\ filter is_force (trace (run occupied)) = [EPrompt PForce]
  /\ res (run occupied) = Exit 1%Z
  /\ filter mutates (trace (run occupied)) = [].
Proof.
  split.
  - apply (proj1 (confirm_gate_prompt happy "my-app" eq_refl)).
    left. reflexivity.
  - destruct (proj2 (confirm_gate_prompt occupied "my-app" eq_refl)
                "README.md" [] eq_refl) as [H1 H2].
    split; [exact H1|]. apply H2. discriminate.
Defined.

(** ** The stages of a run *)

Lemma bind_ext {A B : Type} (m : M A) (f g : A -> M B) s :
  (forall a s', f a s' = g a s') -> bind m f s = bind m g s.
Proof. intros H. rewrite !bind_run. destruct (res (m s)); rewrite ?H; reflexivity. Qed.

Lemma bind_ret_l {A B : Type} (a : A) (f : A -> M B) s :
  bind (ret a) f s = f a s.
Proof. rewrite bind_run. cbn. apply res_eta. Qed.

Lemma bind_ret_r {A : Type} (m : M A) s : bind m (fun a => ret a) s = m s.
Proof.
  rewrite bind_run. destruct (m s) as [[a|c|e] s' t]; cbn;
    rewrite ?app_nil_r; reflexivity.
Qed.

Lemma run_prelude w :
  run w = (options <- prelude w ;; scaffold w options) (start w).
Proof.
  unfold run, main, create, prelude. fold (start w).
  rewrite bind_assoc. apply bind_ext. intros _ s1.
  rewrite bind_assoc. apply bind_ext. intros _ s2.
  rewrite bind_assoc. apply bind_ext. intros _ s3.
  rewrite bind_assoc. reflexivity.
Qed.

Lemma scaffold_before_install w :
  forall s,
    (options <- prelude w ;; scaffold w options) s =
    (options <- before_install w ;;
     options <- install_step w options ;;
     after_install w options) s.
Proof.
  intros s. unfold before_install, scaffold.
  rewrite bind_assoc. apply bind_ext. intros o s1.
  rewrite bind_assoc. apply bind_ext. intros _ s2.
  rewrite bind_assoc. apply bind_ext. intros _ s3.
  rewrite bind_assoc. apply bind_ext. intros _ s4.
  rewrite bind_ret_l. reflexivity.
Qed.

Lemma run_stages w :
  run w =
  (options <- before_install w ;;
   options <- install_step w options ;;
   after_install w options) (start w).
Proof. rewrite run_prelude. apply scaffold_before_install. Qed.

Lemma group_step_run {A : Type} (p : prompt) (a : answer A) s :
  group_step p a s =
  mkRes (match a with Cancelled => Exit 1 | Answered x => Ret x end) s [EPrompt p].
Proof. destruct a; reflexivity. Qed.

Lemma ask_options_ret w s o :
  res (ask_options w s) = Ret o ->
  ask_types w = Answered (types o)
  /\ ask_features w = Answered (features o)
  /\ ask_extras w = Answered (extras o)
  /\ ask_git w = Answered (git o)
  /\ ask_packageManager w = Answered (packageManager o)
  /\ ask_install w = Answered (install o).
Proof.
  unfold ask_options. intros H.
  repeat (rewrite res_bind, group_step_run in H; cbn [res final] in H;
          match type of H with
          | context [match ?a with Cancelled => _ | Answered _ => _ end] =>
              destruct a; [discriminate H|]
          end).
  injection H as <-. repeat split; reflexivity.
Qed.

Lemma confirm_gate_stateless w : stateless (confirm_gate w).
Proof.
  intros s. rewrite confirm_gate_run.
  destruct (fs_at w (cwd s)) as [[|[|e es]]|]; reflexivity.
Qed.

Lemma resolve_cwd_spawned w s : spawned (final (resolve_cwd w s)) = spawned s.
Proof.
  rewrite resolve_cwd_run.
  destruct (String.eqb (cwd s) "."); [|reflexivity].
  destruct (ask_dir w) as [|d]; [reflexivity|].
  cbn. destruct (String.eqb d ""); reflexivity.
Qed.

(** A run that collects the choices [o] has a target, has spawned nothing,
    and [o] holds the answers. *)
Lemma prelude_ret w o :
  res (prelude w (start w)) = Ret o ->
  exists t,
    target w = Some t
    /\ final (prelude w (start w)) = {| cwd := t; spawned := 0 |}
    /\ res (confirm_gate w {| cwd := t; spawned := 0 |}) = Ret tt
    /\ res (ask_options w {| cwd := t; spawned := 0 |}) = Ret o.
Proof.
  unfold prelude, print.
  repeat (progress (rewrite ?res_bind, ?final_bind; cbn [emit res final])).
  unfold target.
  pose proof (resolve_cwd_spawned w (start w)) as Hsp.
  destruct (resolve_cwd w (start w)) as [[[]|c|e] [t n] tr]; cbn [res final] in *;
    try discriminate.
  cbn in Hsp. subst n.
  pose proof (confirm_gate_stateless w {| cwd := t; spawned := 0 |}) as Hg.
  destruct (res (confirm_gate w {| cwd := t; spawned := 0 |})) as [[]|c|e] eqn:Eg;
    try discriminate.
  rewrite Hg. intros Ho. exists t.
  rewrite ask_options_stateless.
  split; [reflexivity|]. split; [reflexivity|]. split; [exact Eg|exact Ho].
Qed.

Lemma prelude_quiet_base_copy w : quiet is_base_copy (prelude w).
Proof.
  unfold prelude, print.
  apply quiet_bind; [apply quiet_emit; reflexivity|]. intros _.
  apply quiet_bind; [apply quiet_emit; reflexivity|]. intros _.
  apply quiet_bind; [apply resolve_cwd_quiet; reflexivity|]. intros _.
  apply quiet_bind.
  - intros s. rewrite confirm_gate_run.
    destruct (fs_at w (cwd s)) as [[|[|e es]]|]; reflexivity.
  - intros _. unfold ask_options, group_step, ask. quiet_auto.
Qed.

(** ** The base templates *)

Lemma copy_run w t s :
  copy w t s =
  mkRes (if copy_ok w t (cwd s) then Ret tt else Throw "copy") s [ECopy t (cwd s)].
Proof.
  unfold copy. rewrite bind_run. cbn [get_cwd res final trace].
  rewrite bind_run. cbn [emit res final trace app].
  destruct (copy_ok w t (cwd s)); reflexivity.
Qed.

Lemma copy_base_run w options s :
  copy_base w options s =
  mkRes (if copy_ok w (base_template (types options)) (cwd s)
         then Ret tt else Throw "copy")
        s [ECopy (base_template (types options)) (cwd s)].
Proof.
  unfold copy_base, base_template.
  destruct (String.eqb (types options) "typescript"); apply copy_run.
Qed.

Lemma generate_stateless w options : stateless (generate w options).
Proof. unfold generate. stateless_auto. Qed.

Lemma resolveDeps_stateless w options deps : stateless (resolveDeps w options deps).
Proof. intros s. rewrite resolveDeps_run. reflexivity. Qed.

Lemma update_manifest_stateless w options : stateless (update_manifest w options).
Proof.
  unfold update_manifest. stateless_auto.
  apply resolveDeps_stateless.
Qed.

Lemma generate_quiet_base_copy w options : quiet is_base_copy (generate w options).
Proof. unfold generate. quiet_auto. Qed.

Lemma update_manifest_quiet_base_copy w options :
  quiet is_base_copy (update_manifest w options).
Proof. unfold update_manifest. quiet_auto. Qed.

Lemma install_step_quiet_base_copy w options :
  quiet is_base_copy (install_step w options).
Proof. unfold install_step. quiet_auto. Qed.

Lemma after_install_quiet_base_copy w options :
  quiet is_base_copy (after_install w options).
Proof. unfold_stages. quiet_auto. Qed.

Lemma is_base_copy_base_template ty d :
  is_base_copy (ECopy (base_template ty) d) = true.
Proof. unfold base_template. destruct (String.eqb ty "typescript"); reflexivity. Qed.

Lemma scaffold_base_copies w options s :
  filter is_base_copy (trace (scaffold w options s)) =
  match res (generate w options s) with
  | Ret _ =>
      match res (update_manifest w options s) with
      | Ret _ => [ECopy (base_template (types options)) (cwd s)]
      | _ => []
      end
  | _ => []
  end.
Proof.
  unfold scaffold.
  rewrite trace_bind, filter_app, generate_quiet_base_copy, generate_stateless.
  destruct (res (generate w options s)); [|reflexivity..].
  rewrite trace_bind, filter_app, update_manifest_quiet_base_copy,
    update_manifest_stateless.
  destruct (res (update_manifest w options s)); [|reflexivity..].
  rewrite trace_bind, filter_app, copy_base_run. cbn [trace res final app filter].
  rewrite is_base_copy_base_template.
  destruct (copy_ok w _ _); [|reflexivity].
  assert (Q : quiet is_base_copy
                (o <- install_step w options ;; after_install w o)).
  { apply quiet_bind; [apply install_step_quiet_base_copy|].
    intros o. apply after_install_quiet_base_copy. }
  rewrite Q. reflexivity.
Qed.

Lemma generate_run w options s :
  generate w options s =
  mkRes (if generator_ok w then Ret tt else Throw "createSvelteKitApp") s
        [EGenerate (cwd s) (generator_options w options (cwd s))].
Proof.
  unfold generate, generator_options.
  rewrite bind_run. cbn [get_cwd res final trace].
  rewrite bind_run. cbn [emit res final trace app].
  destruct (generator_ok w); reflexivity.
Qed.

Lemma update_manifest_run w options s :
  update_manifest w options s =
  match manifest w with
  | None => mkRes (Throw "package.json") s [EReadFile (cwd s) "package.json"]
  | Some m =>
      mkRes (if write_ok w then Ret tt else Throw "writeFileSync") s
            (EReadFile (cwd s) "package.json"
             :: ESpinStart "Resolving package versions"
             :: flat_map (fun p => resolve_events w p None)
                         (selected_packages options devDeps)
             ++ [ ESpinStop "Resolved package versions";
                  EWriteFile (cwd s) "package.json" (merged_manifest w options m) ])
  end.
Proof.
  unfold update_manifest, merged_manifest.
  rewrite bind_run. cbn [get_cwd res final trace].
  rewrite bind_run. cbn [emit res final trace app].
  destruct (manifest w) as [m|]; [|reflexivity].
  rewrite bind_run. cbn [emit res final trace app].
  rewrite bind_run, resolveDeps_run. cbn [res final trace].
  rewrite bind_run. cbn [emit res final trace app].
  rewrite bind_run. cbn [emit res final trace app].
  destruct (write_ok w); reflexivity.
Qed.

(** C7.  A run reaches lines 216 to 222 when the choices are collected,
    the generator returns and the manifest is read and written.  Every such
    run copies a base template set into the target directory, and exactly
    one in the whole run: the set [typescript] when the chosen mode is
    ['typescript'], the set [javascript] for every other mode, so for
    ['checkjs'] and for ['null'].  And a base set is copied in no other
    run: wherever such a copy occurs, the mode was chosen, the copy goes
    into the target and it is the only one. *)
Theorem base_template_copied w :
  (forall options t m,
      res (prelude w (start w)) = Ret options ->
      target w = Some t ->
      generator_ok w = true ->
      manifest w = Some m ->
      write_ok w = true ->
      ask_types w = Answered (types options)
      /\ (types options = "typescript" ->
          filter is_base_copy (trace (run w)) = [ECopy "typescript" t])
      /\ (types options <> "typescript" ->
          filter is_base_copy (trace (run w)) = [ECopy "javascript" t]))
  /\ (forall t d,
        In (ECopy t d) (trace (run w)) ->
        t = "typescript" \/ t = "javascript" ->
        exists ty,
          ask_types w = Answered ty
          /\ target w = Some d
          /\ filter is_base_copy (trace (run w)) = [ECopy t d]
          /\ (ty = "typescript" -> t = "typescript")
          /\ (ty <> "typescript" -> t = "javascript")).
Proof.
  split.
  - intros o t m Ho Ht Hg Hm Hw.
    destruct (prelude_ret w o Ho) as (t' & Ht' & Hfinal & _ & Hopts).
    rewrite Ht in Ht'. injection Ht' as <-.
    split; [exact (proj1 (ask_options_ret w _ o Hopts))|].
    assert (Hf : filter is_base_copy (trace (run w))
                 = [ECopy (base_template (types o)) t]).
    { rewrite run_prelude, trace_bind, filter_app, prelude_quiet_base_copy.
      rewrite Ho, Hfinal, scaffold_base_copies.
      rewrite generate_run, Hg, update_manifest_run, Hm, Hw. reflexivity. }
    rewrite Hf. unfold base_template. split.
    + intros ->. reflexivity.
    + intros Hne. rewrite (proj2 (String.eqb_neq _ _) Hne). reflexivity.
  - intros t d Hin Ht.
    assert (Hf : In (ECopy t d) (filter is_base_copy (trace (run w)))).
    { apply filter_In. split; [exact Hin|].
      destruct Ht as [-> | ->]; reflexivity. }
    clear Hin Ht. rewrite run_prelude in *.
    rewrite trace_bind, filter_app, prelude_quiet_base_copy in *.
    cbn [app] in *.
    destruct (res (prelude w (start w))) as [o|c|e] eqn:Ho; [|destruct Hf..].
    destruct (prelude_ret w o Ho) as (t0 & Htarget & Hfinal & _ & Hopts).
    rewrite Hfinal, scaffold_base_copies in *. cbn [cwd] in *.
    destruct (res (generate w o _)); [|destruct Hf..].
    destruct (res (update_manifest w o _)); [|destruct Hf..].
    destruct Hf as [E|[]]. injection E as <- <-.
    exists (types o).
    split; [exact (proj1 (ask_options_ret w _ o Hopts))|].
    split; [exact Htarget|]. split; [reflexivity|].
    unfold base_template. split.
    + intros ->. reflexivity.
    + intros Hne. rewrite (proj2 (String.eqb_neq _ _) Hne). reflexivity.
Qed.

Lemma base_template_copied_witness :
  filter is_base_copy (trace (run custom_answers)) = [ECopy "typescript" "my-app"]
  /\ filter is_base_copy (trace (run happy)) = [ECopy "javascript" "my-app"].
Proof.
  split.
  - destruct (proj1 (base_template_copied custom_answers)
                {| types := "typescript"; features := ["eslint"; "vitest"];
                   extras := ["tailwindcss"]; git := false;
                   packageManager := "pnpm"; install := false |}
                "my-app" sample_manifest eq_refl eq_refl eq_refl eq_refl eq_refl)
      as (_ & H & _).
    exact (H eq_refl).
  - destruct (proj1 (base_template_copied happy)
                {| types := "checkjs"; features := []; extras := [];
                   git := true; packageManager := "npm"; install := true |}
                "my-app" sample_manifest eq_refl eq_refl eq_refl eq_refl eq_refl)
      as (_ & _ & H).
    apply H. discriminate.
Defined.

(** ** Children, and the blocks that run them *)

Lemma execa_run w cmd args s :
  execa w cmd args s =
  mkRes (if execa_ok w (spawned s) cmd args then Ret tt else Throw "execa")
        {| cwd := cwd s; spawned := S (spawned s) |}
        [EExec cmd args (cwd s)].
Proof. reflexivity. Qed.

Lemma extra_block_run w s starting init template commit stopped failed note title :
  try_catch
    (emit (ESpinStart starting) ;;
     execa w "npx" init ;;
     copy w template ;;
     execa w "git" ["add"; "-A"] ;;
     execa w "git" ["commit"; "-m"; commit] ;;
     emit (ESpinStop stopped))
    (emit (ESpinStop failed) ;; emit (ENote note (Some title))) s
  = mkRes (Ret tt)
          {| cwd := cwd s;
             spawned :=
               if execa_ok w (spawned s) "npx" init then
                 if copy_ok w template (cwd s) then
                   if execa_ok w (S (spawned s)) "git" ["add"; "-A"]
                   then 3 + spawned s else 2 + spawned s
                 else 1 + spawned s
               else 1 + spawned s |}
          (extra_events w s starting init template commit stopped failed note title).
Proof.
  unfold try_catch, extra_events.
  rewrite bind_run. cbn [emit res final trace].
  rewrite bind_run, execa_run. cbn [res final trace].
  destruct (execa_ok w (spawned s) "npx" init); [|reflexivity].
  rewrite bind_run, copy_run. cbn [res final trace cwd spawned].
  destruct (copy_ok w template (cwd s)); [|reflexivity].
  rewrite bind_run, execa_run. cbn [res final trace cwd spawned].
  destruct (execa_ok w (S (spawned s)) "git" ["add"; "-A"]); [|reflexivity].
  rewrite bind_run, execa_run. cbn [res final trace cwd spawned].
  destruct (execa_ok w (S (S (spawned s))) "git" ["commit"; "-m"; commit]);
    reflexivity.
Qed.

Lemma tailwind_step_run w options s :
  includes (extras options) "tailwindcss" = true ->
  tailwind_step w options s
  = mkRes (Ret tt)
          {| cwd := cwd s;
             spawned := extra_spawned w s ["tailwindcss"; "init"; "-p"] "tailwind" |}
          (extra_events w s "Initializing tailwindcss"
             ["tailwindcss"; "init"; "-p"] "tailwind" "feat: added tailwindcss"
             "Initialized tailwindcss" (red w "Failed to initialize tailwindcss")
             "npx tailwindcss init -p" "Initialize tailwindcss manually.").
Proof.
  intros H. unfold tailwind_step. rewrite H. cbn [when].
  rewrite extra_block_run. reflexivity.
Qed.

Lemma changesets_step_run w options s :
  includes (extras options) "@changesets/cli" = true ->
  changesets_step w options s
  = mkRes (Ret tt)
          {| cwd := cwd s;
             spawned := extra_spawned w s ["changeset"; "init"] "changesets" |}
          (extra_events w s "Initializing changesets"
             ["changeset"; "init"] "changesets" "feat: added changeset"
             "Initialized changesets" (red w "Failed to initialize changesets")
             "npx changeset init" "Initialize changesets manually.").
Proof.
  intros H. unfold changesets_step. rewrite H. cbn [when].
  rewrite extra_block_run. reflexivity.
Qed.

Lemma skipped_step_run (m : M unit) s : when false m s = mkRes (Ret tt) s [].
Proof. reflexivity. Qed.

(** The version-control block has no handler: the first child that fails
    ends it with the exception. *)
Lemma git_step_run w options s :
  git_step w options s =
  if git options then
    let d := cwd s in
    let n := spawned s in
    if execa_ok w n "git" ["init"] then
      if execa_ok w (S n) "git" ["add"; "-A"] then
        mkRes (if execa_ok w (S (S n)) "git" ["commit"; "-m"; "Initial commit"]
               then Ret tt else Throw "execa")
              {| cwd := d; spawned := 3 + n |}
              [EExec "git" ["init"] d; EExec "git" ["add"; "-A"] d;
               EExec "git" ["commit"; "-m"; "Initial commit"] d]
      else mkRes (Throw "execa") {| cwd := d; spawned := 2 + n |}
                 [EExec "git" ["init"] d; EExec "git" ["add"; "-A"] d]
    else mkRes (Throw "execa") {| cwd := d; spawned := 1 + n |}
               [EExec "git" ["init"] d]
  else mkRes (Ret tt) s [].
Proof.
  unfold git_step. destruct (git options); [|reflexivity]. cbn [when].
  cbv zeta.
  rewrite bind_run, execa_run. cbn [res final trace cwd spawned].
  destruct (execa_ok w (spawned s) "git" ["init"]); [|reflexivity].
  rewrite bind_run, execa_run. cbn [res final trace cwd spawned].
  destruct (execa_ok w (S (spawned s)) "git" ["add"; "-A"]); [|reflexivity].
  rewrite execa_run. cbn [res final trace cwd spawned].
  destruct (execa_ok w _ _ _); reflexivity.
Qed.

(** *** Computations that return *)

Lemma returns_ret {A : Type} (a : A) : returns (ret a).
Proof. intros s. exists a. reflexivity. Qed.

Lemma returns_emit e : returns (emit e).
Proof. intros s. exists tt. reflexivity. Qed.

Lemma returns_get_cwd : returns get_cwd.
Proof. intros s. eexists. reflexivity. Qed.

Lemma returns_bind {A B : Type} (m : M A) (f : A -> M B) :
  returns m -> (forall a, returns (f a)) -> returns (bind m f).
Proof.
  intros Hm Hf s. destruct (Hm s) as [a Ha].
  destruct (Hf a (final (m s))) as [b Hb].
  exists b. rewrite res_bind, Ha. exact Hb.
Qed.

Lemma returns_when b (m : M unit) : returns m -> returns (when b m).
Proof. intros H. destruct b; [exact H|apply returns_ret]. Qed.

Ltac returns_step :=
  match goal with
  | |- returns (bind _ _) => apply returns_bind; [|intro]
  | |- returns (ret _) => apply returns_ret
  | |- returns get_cwd => apply returns_get_cwd
  | |- returns (emit _) => apply returns_emit
  | |- returns (when _ _) => apply returns_when
  | |- returns (if ?b then _ else _) => destruct b
  end.

Ltac returns_auto := cbv zeta; repeat returns_step.

Lemma report_returns w options : returns (report w options).
Proof. unfold report, print. returns_auto. Qed.

Lemma report_stateless w options : stateless (report w options).
Proof.
  unfold report, print, when. stateless_auto.
Qed.

Lemma report_quiet P w options :
  (forall l, P (EPrint l) = false) -> (forall m, P (EOutro m) = false) ->
  quiet P (report w options).
Proof.
  intros Hp Ho. unfold report, print.
  repeat first
    [ apply quiet_bind; [|intro]
    | apply quiet_when
    | apply quiet_ret
    | apply quiet_emit; solve [apply Hp | apply Ho]
    | match goal with |- quiet _ (if ?b then _ else _) => destruct b end ].
Qed.

Lemma next_steps_run w options s :
  next_steps w options s =
  mkRes (Ret tt) s (map EPrint (next_steps_lines w options (cwd s))).
Proof.
  unfold next_steps, next_steps_lines, print. cbv zeta.
  rewrite bind_run. cbn [emit res final trace].
  rewrite bind_run. cbn [get_cwd res final trace].
  destruct (String.eqb (path_relative w (cwd s)) "");
    destruct (install options); destruct (git options); reflexivity.
Qed.

(** ** After the templates: install, version control, extras, summary *)

Lemma install_step_run w options s :
  install_step w options s =
  if install options then
    if execa_ok w (spawned s) (packageManager options) ["install"] then
      mkRes (Ret options) {| cwd := cwd s; spawned := S (spawned s) |}
            [ ESpinStart ("Installing dependencies using " ++ packageManager options);
              EExec (packageManager options) ["install"] (cwd s);
              ESpinStop ("Installed dependencies using " ++ packageManager options) ]
    else
      mkRes (Ret (set_install false options))
            {| cwd := cwd s; spawned := S (spawned s) |}
            (install_failure_events w options (cwd s))
  else mkRes (Ret options) s [].
Proof.
  unfold install_step, install_failure_events, try_catch. cbv zeta.
  destruct (install options); [|reflexivity].
  rewrite bind_run. cbn [emit res final trace].
  rewrite bind_run, execa_run. cbn [res final trace cwd spawned].
  destruct (execa_ok w (spawned s) (packageManager options) ["install"]);
    reflexivity.
Qed.

Lemma changesets_step_returns w options : returns (changesets_step w options).
Proof.
  intros s. exists tt.
  destruct (includes (extras options) "@changesets/cli") eqn:E.
  - rewrite (changesets_step_run w options s E). reflexivity.
  - unfold changesets_step. rewrite E. reflexivity.
Qed.

Lemma tailwind_step_returns w options : returns (tailwind_step w options).
Proof.
  intros s. exists tt.
  destruct (includes (extras options) "tailwindcss") eqn:E.
  - rewrite (tailwind_step_run w options s E). reflexivity.
  - unfold tailwind_step. rewrite E. reflexivity.
Qed.

Lemma changesets_step_cwd w options s :
  cwd (final (changesets_step w options s)) = cwd s.
Proof.
  destruct (includes (extras options) "@changesets/cli") eqn:E.
  - rewrite (changesets_step_run w options s E). reflexivity.
  - unfold changesets_step. rewrite E. reflexivity.
Qed.

Lemma tailwind_step_cwd w options s :
  cwd (final (tailwind_step w options s)) = cwd s.
Proof.
  destruct (includes (extras options) "tailwindcss") eqn:E.
  - rewrite (tailwind_step_run w options s E). reflexivity.
  - unfold tailwind_step. rewrite E. reflexivity.
Qed.

Lemma git_step_cwd w options s :
  cwd (final (git_step w options s)) = cwd s.
Proof.
  rewrite git_step_run. cbv zeta.
  destruct (git options); [|reflexivity].
  destruct (execa_ok w (spawned s) "git" ["init"]); [|reflexivity].
  destruct (execa_ok w (S (spawned s)) "git" ["add"; "-A"]); reflexivity.
Qed.

Lemma res_bind_unit {B : Type} (m : M unit) (f : unit -> M B) s :
  res (m s) = Ret tt -> res (bind m f s) = res (f tt (final (m s))).
Proof. intros H. rewrite res_bind, H. reflexivity. Qed.

Lemma trace_bind_unit {B : Type} (m : M unit) (f : unit -> M B) s :
  res (m s) = Ret tt ->
  trace (bind m f s) = (trace (m s) ++ trace (f tt (final (m s))))%list.
Proof. intros H. rewrite trace_bind, H. reflexivity. Qed.

Lemma returns_unit (m : M unit) s : returns m -> res (m s) = Ret tt.
Proof. intros H. destruct (H s) as [[] E]. exact E. Qed.

(** Once the version-control block is over, nothing stops the run: the
    extras, the report and the closing instructions all return. *)
Lemma after_git_returns w options :
  returns (changesets_step w options ;;
           tailwind_step w options ;;
           report w options ;;
           next_steps w options).
Proof.
  apply returns_bind; [apply changesets_step_returns|]. intros _.
  apply returns_bind; [apply tailwind_step_returns|]. intros _.
  apply returns_bind; [apply report_returns|]. intros _.
  intros s. exists tt. rewrite next_steps_run. reflexivity.
Qed.

Lemma after_install_res w options s :
  res (after_install w options s) =
  match res (git_step w options s) with
  | Ret _ => Ret tt
  | Exit c => Exit c
  | Throw e => Throw e
  end.
Proof.
  unfold after_install. rewrite res_bind.
  destruct (res (git_step w options s)); [|reflexivity..].
  apply returns_unit, after_git_returns.
Qed.

Lemma after_install_trace w options s :
  trace (after_install w options s) =
  (trace (git_step w options s)
   ++ match res (git_step w options s) with
      | Ret _ =>
          let s1 := final (git_step w options s) in
          let s2 := final (changesets_step w options s1) in
          let s3 := final (tailwind_step w options s2) in
          trace (changesets_step w options s1)
          ++ trace (tailwind_step w options s2)
          ++ trace (report w options s3)
          ++ map EPrint (next_steps_lines w options (cwd s))
      | _ => []
      end)%list.
Proof.
  unfold after_install. rewrite trace_bind.
  destruct (res (git_step w options s)) as [[]|c|e] eqn:Eg; [|reflexivity..].
  f_equal. cbv zeta.
  rewrite trace_bind_unit by apply returns_unit, changesets_step_returns.
  f_equal.
  rewrite trace_bind_unit by apply returns_unit, tailwind_step_returns.
  f_equal.
  rewrite trace_bind_unit by apply returns_unit, report_returns.
  f_equal.
  rewrite next_steps_run. cbn [trace].
  rewrite report_stateless, tailwind_step_cwd, changesets_step_cwd, git_step_cwd.
  reflexivity.
Qed.

(** ** What a run has done when it reaches the install block *)

Lemma confirm_gate_quiet P w :
  P (EPrompt PForce) = false -> quiet P (confirm_gate w).
Proof.
  intros H s. rewrite confirm_gate_run.
  destruct (fs_at w (cwd s)) as [[|[|e es]]|]; cbn; rewrite ?H; reflexivity.
Qed.

Lemma prelude_quiet P w :
  (forall l, P (EPrint l) = false) ->
  (forall m, P (EIntro m) = false) ->
  (forall p, P (EPrompt p) = false) ->
  quiet P (prelude w).
Proof.
  intros Hl Hi Hp. unfold prelude, print.
  apply quiet_bind; [apply quiet_emit, Hl|]. intros _.
  apply quiet_bind; [apply quiet_emit, Hi|]. intros _.
  apply quiet_bind; [apply resolve_cwd_quiet, Hp|]. intros _.
  apply quiet_bind; [apply confirm_gate_quiet, Hp|]. intros _.
  unfold ask_options, group_step, ask. quiet_auto.
Qed.

Lemma generate_quiet_child w options : quiet is_child (generate w options).
Proof. unfold generate. quiet_auto. Qed.

Lemma generate_quiet_copy w options : quiet is_copy (generate w options).
Proof. unfold generate. quiet_auto. Qed.

Lemma update_manifest_quiet_child w options :
  quiet is_child (update_manifest w options).
Proof. unfold update_manifest. quiet_auto. Qed.

Lemma update_manifest_quiet_copy w options :
  quiet is_copy (update_manifest w options).
Proof. unfold update_manifest. quiet_auto. Qed.

(** A run that reaches line 225 with the choices [options] has a target
    [t], has spawned no child, and has copied one template set, the base
    one, into [t]. *)
Lemma before_install_ret w options :
  res (before_install w (start w)) = Ret options ->
  exists t,
    target w = Some t
    /\ final (before_install w (start w)) = {| cwd := t; spawned := 0 |}
    /\ res (ask_options w {| cwd := t; spawned := 0 |}) = Ret options
    /\ filter is_child (trace (before_install w (start w))) = []
    /\ filter is_copy (trace (before_install w (start w)))
       = [ECopy (base_template (types options)) t].
Proof.
  unfold before_install. intros H.
  rewrite res_bind in H. rewrite final_bind, trace_bind, !filter_app.
  rewrite (prelude_quiet is_child) by reflexivity.
  rewrite (prelude_quiet is_copy) by reflexivity.
  destruct (res (prelude w (start w))) as [o|c|e] eqn:Hp; try discriminate H.
  destruct (prelude_ret w o Hp) as (t & Ht & Hfin & _ & Ho).
  rewrite Hfin in *. exists t. split; [exact Ht|].
  set (s := {| cwd := t; spawned := 0 |}) in *.
  rewrite res_bind, generate_stateless in H.
  rewrite final_bind, trace_bind, !filter_app, generate_stateless.
  rewrite generate_quiet_child, generate_quiet_copy.
  destruct (res (generate w o s)); try discriminate H.
  rewrite res_bind, update_manifest_stateless in H.
  rewrite final_bind, trace_bind, !filter_app, update_manifest_stateless.
  rewrite update_manifest_quiet_child, update_manifest_quiet_copy.
  destruct (res (update_manifest w o s)); try discriminate H.
  rewrite res_bind, copy_base_run in H. cbn [res final] in H.
  rewrite final_bind, trace_bind, !filter_app, copy_base_run.
  cbn [res final trace] in *.
  destruct (copy_ok w (base_template (types o)) (cwd s)); try discriminate H.
  cbn [res final ret Monad_M m_ret] in H. injection H as <-.
  cbn [res final trace ret Monad_M m_ret app filter is_child is_copy].
  split; [reflexivity|]. split; [exact Ho|]. split; reflexivity.
Qed.

Lemma run_after_templates w options :
  res (before_install w (start w)) = Ret options ->
  forall t, target w = Some t ->
  let s := {| cwd := t; spawned := 0 |} in
  let k := (o <- install_step w options ;; after_install w o) s in
  res (run w) = res k
  /\ trace (run w) = (trace (before_install w (start w)) ++ trace k)%list.
Proof.
  intros H t Ht s k.
  destruct (before_install_ret w options H) as (t' & Ht' & Hfin & _).
  rewrite Ht in Ht'. injection Ht' as <-.
  rewrite run_stages, res_bind, trace_bind, H, Hfin.
  split; reflexivity.
Qed.

Lemma before_install_quiet P w :
  (forall l, P (EPrint l) = false) ->
  (forall m, P (EIntro m) = false) ->
  (forall p, P (EPrompt p) = false) ->
  (forall d o, P (EGenerate d o) = false) ->
  (forall d n, P (EReadFile d n) = false) ->
  (forall d n j, P (EWriteFile d n j) = false) ->
  (forall m, P (ESpinStart m) = false) ->
  (forall m, P (ESpinStop m) = false) ->
  (forall u, P (ERequest u) = false) ->
  (forall t d, P (ECopy t d) = false) ->
  quiet P (before_install w).
Proof.
  intros H1 H2 H3 H4 H5 H6 H7 H8 H9 H10. unfold before_install.
  apply quiet_bind; [apply prelude_quiet; assumption|]. intros o.
  unfold generate, update_manifest, copy_base, copy. quiet_auto.
Qed.

(** The install block always hands the run on: it returns the options,
    changed in [install] at most, in the same directory. *)
Lemma install_step_shape w options s :
  exists o' tr,
    install_step w options s
    = mkRes (Ret o')
            {| cwd := cwd s;
               spawned := if install options then S (spawned s) else spawned s |}
            tr
    /\ (o' = options \/ (install options = true /\ o' = set_install false options))
    /\ filter is_child tr
       = (if install options
          then [EExec (packageManager options) ["install"] (cwd s)] else [])
    /\ filter is_copy tr = []
    /\ filter is_outro tr = [].
Proof.
  rewrite install_step_run. unfold install_failure_events.
  destruct (install options) eqn:Ei.
  - destruct (execa_ok w (spawned s) (packageManager options) ["install"]);
      eexists; eexists; (split; [reflexivity|]);
      (split; [auto|]); repeat split; reflexivity.
  - exists options, []. destruct s. repeat split. left. reflexivity.
Qed.

Lemma In_next_steps w options s l :
  res (git_step w options s) = Ret tt ->
  In l (next_steps_lines w options (cwd s)) ->
  In (EPrint l) (trace (after_install w options s)).
Proof.
  intros Hg Hl. rewrite after_install_trace, Hg. cbv zeta.
  apply in_or_app. right. apply in_or_app. right. apply in_or_app. right.
  apply in_or_app. right. apply in_map. exact Hl.
Qed.

Lemma install_line_printed w options d :
  install options = false ->
  In (install_line w (if String.eqb (path_relative w d) "" then 1 else 2) options)
     (next_steps_lines w options d).
Proof.
  intros H. unfold next_steps_lines. cbv zeta. rewrite H.
  right. apply in_or_app. right. left. reflexivity.
Qed.

Lemma git_line_printed w options d :
  git options = false ->
  exists k, In (git_line w k) (next_steps_lines w options d).
Proof.
  intros H. unfold next_steps_lines. cbv zeta. rewrite H.
  eexists. right. apply in_or_app. right. apply in_or_app. right.
  left. reflexivity.
Qed.

Lemma git_step_ok w options s :
  git options = false \/ git_children_ok w (spawned s) = true ->
  res (git_step w options s) = Ret tt.
Proof.
  rewrite git_step_run. unfold git_children_ok. cbv zeta.
  destruct (git options); [|reflexivity].
  intros [H|H]; [discriminate|].
  destruct (execa_ok w (spawned s) "git" ["init"]); [|discriminate].
  destruct (execa_ok w (S (spawned s)) "git" ["add"; "-A"]); [|discriminate].
  cbn in H. rewrite H. reflexivity.
Qed.

(** The general form of the defect behind C1: when version control is
    requested and one of its three children fails, the exception leaves
    [create]; neither the extras nor the summary follow. *)
Lemma git_failure_escapes w options t :
  res (before_install w (start w)) = Ret options ->
  target w = Some t ->
  git options = true ->
  git_children_ok w (if install options then 1 else 0) = false ->
  res (run w) = Throw "execa"
  /\ filter is_outro (trace (run w)) = []
  /\ filter is_copy (trace (run w)) = [ECopy (base_template (types options)) t].
Proof.
  intros Hb Ht Hg Hk.
  destruct (run_after_templates w options Hb t Ht) as [Hres Htr].
  destruct (before_install_ret w options Hb) as (t' & Ht' & _ & _ & _ & Hc).
  rewrite Ht in Ht'. injection Ht' as <-.
  rewrite Hres, Htr, !filter_app, Hc.
  rewrite (before_install_quiet is_outro) by reflexivity.
  rewrite res_bind, trace_bind, !filter_app.
  destruct (install_step_shape w options {| cwd := t; spawned := 0 |})
    as (o' & tr & E & Ho' & _ & Hcopy & Houtro).
  rewrite E. cbn [res final trace cwd spawned].
  rewrite Hcopy, Houtro, after_install_res, after_install_trace.
  assert (Hg' : git o' = true).
  { destruct Ho' as [->|[_ ->]]; exact Hg. }
  rewrite git_step_run, Hg'. cbv zeta. cbn [cwd spawned].
  unfold git_children_ok in Hk.
  destruct (execa_ok w _ "git" ["init"]);
    [destruct (execa_ok w _ "git" ["add"; "-A"]);
     [destruct (execa_ok w _ "git" ["commit"; "-m"; "Initial commit"]);
      [discriminate Hk|]|]|];
    repeat split; reflexivity.
Qed.

(** C1 fails on the code.  Version control is requested, an extra is
    selected, and [git] cannot be run.  The install child runs, then
    [git init] fails, and the exception leaves [create]: the promise is
    rejected, no note with a manual instruction is shown, the selected
    extra is never initialised and the summary is never printed. *)
Theorem git_failure_rejects :
  ask_git git_missing_with_extra = Answered true
  /\ ask_extras git_missing_with_extra = Answered ["tailwindcss"]
  /\ res (run git_missing_with_extra) = Throw "execa"
  /\ status_of (res (run git_missing_with_extra)) = Rejected "execa"
  /\ filter is_child (trace (run git_missing_with_extra))
     = [EExec "npm" ["install"] "my-app"; EExec "git" ["init"] "my-app"]
  /\ filter is_note (trace (run git_missing_with_extra)) = []
  /\ filter is_outro (trace (run git_missing_with_extra)) = []
  /\ last (trace (run git_missing_with_extra)) (EIntro "")
     = EExec "git" ["init"] "my-app".
Proof. repeat split; reflexivity. Qed.

(** C3 fails on the code, through the defect of C1.  Here install and git
    are chosen and no child can be run.  The install child fails; the block
    catches that, shows its note, and the run goes on.  Then [git init]
    fails, outside any handler: the promise of [create] is rejected, the
    run does not complete with exit code 0, and no summary, so no manual
    install instruction, is printed. *)
Theorem install_failure_then_git_failure :
  ask_install no_children = Answered true
  /\ ask_git no_children = Answered true
  /\ execa_ok no_children 0 "npm" ["install"] = false
  /\ filter is_child (trace (run no_children))
     = [EExec "npm" ["install"] "my-app"; EExec "git" ["init"] "my-app"]
  /\ filter is_note (trace (run no_children))
     = [ENote "You can install them manually." None]
  /\ res (run no_children) = Throw "execa"
  /\ status_of (res (run no_children)) = Rejected "execa"
  /\ filter is_outro (trace (run no_children)) = []
  /\ (forall k,
        ~ In (EPrint (install_line no_children k
                        {| types := "checkjs"; features := []; extras := [];
                           git := true; packageManager := "npm";
                           install := false |}))
             (trace (run no_children))).
Proof.
  repeat (split; [reflexivity|]).
  intros k H. vm_compute in H.
  repeat (destruct H as [H|H]; [discriminate H|]). exact H.
Qed.

(** The install block on a failing child.  Let a run reach the install
    block with the choices [options], install among them, and let the
    install child exit with another code than 0.  The block catches the failure, shows the note
    "You can install them manually." and hands on the options with
    [install] set to false and nothing else changed; no other outcome of
    the block changes the options.  The run goes on with the remaining
    steps.  Provided that version control was not requested, or that its
    three children succeed, the run completes normally, with exit code 0,
    and the closing instructions hold the line "<packageManager> install". *)
Theorem install_failure_recovers w options t :
  res (before_install w (start w)) = Ret options ->
  target w = Some t ->
  install options = true ->
  execa_ok w 0 (packageManager options) ["install"] = false ->
  let s := {| cwd := t; spawned := 0 |} in
  let s' := {| cwd := t; spawned := 1 |} in
  let o' := set_install false options in
  install_step w options s = mkRes (Ret o') s' (install_failure_events w options t)
  /\ (install o' = false /\ types o' = types options
      /\ features o' = features options /\ extras o' = extras options
      /\ git o' = git options /\ packageManager o' = packageManager options)
  /\ (forall o1 s1 o2,
        res (install_step w o1 s1) = Ret o2 ->
        o2 = o1 \/ (install o1 = true /\ o2 = set_install false o1))
  /\ res (run w) = res (after_install w o' s')
  /\ (git options = false \/ git_children_ok w 1 = true ->
      res (run w) = Ret tt
      /\ status_of (res (run w)) = Completed
      /\ In (EPrint (install_line w
                       (if String.eqb (path_relative w t) "" then 1 else 2)
                       options))
            (trace (run w))).
Proof.
  intros Hb Ht Hi Hx s s' o'.
  assert (Hstep : install_step w options s
                  = mkRes (Ret o') s' (install_failure_events w options t)).
  { rewrite install_step_run, Hi. cbn [spawned cwd s]. rewrite Hx. reflexivity. }
  split; [exact Hstep|].
  split; [repeat split; reflexivity|].
  split.
  { intros o1 s1 o2 H.
    destruct (install_step_shape w o1 s1) as (o3 & tr & E & Ho & _).
    rewrite E in H. injection H as <-. exact Ho. }
  destruct (run_after_templates w options Hb t Ht) as [Hres Htr].
  fold s in Hres, Htr.
  rewrite res_bind, Hstep in Hres. cbn [res final] in Hres.
  rewrite trace_bind, Hstep in Htr. cbn [res final trace] in Htr.
  split; [exact Hres|].
  intros Hg.
  assert (Hgit : res (git_step w o' s') = Ret tt).
  { apply git_step_ok. exact Hg. }
  assert (Hdone : res (run w) = Ret tt).
  { rewrite Hres, after_install_res, Hgit. reflexivity. }
  split; [exact Hdone|]. split; [rewrite Hdone; reflexivity|].
  rewrite Htr. apply in_or_app. right. apply in_or_app. right.
  apply (In_next_steps w o' s' _ Hgit).
  exact (install_line_printed w o' t eq_refl).
Qed.

Lemma install_failure_recovers_witness :
  res (run install_fails) = Ret tt
  /\ status_of (res (run install_fails)) = Completed
  /\ In (EPrint "  2: npm install") (trace (run install_fails)).
Proof.
  destruct (install_failure_recovers install_fails
              {| types := "checkjs"; features := []; extras := [];
                 git := true; packageManager := "npm"; install := true |}
              "my-app" eq_refl eq_refl eq_refl eq_refl)
    as (_ & _ & _ & _ & H).
  exact (H (or_intror eq_refl)).
Defined.

(** C5, as stated, fails: with only tailwindcss selected and git declined,
    the commit of the extra is not skipped.  Where [git add] and
    [git commit] work, as in a directory inside a repository, the commit
    "feat: added tailwindcss" is made. *)
Lemma tailwind_commits_without_git :
  ask_extras tailwind_in_repository = Answered ["tailwindcss"]
  /\ ask_git tailwind_in_repository = Answered false
  /\ In (EExec "git" ["commit"; "-m"; "feat: added tailwindcss"] "my-app")
        (trace (run tailwind_in_repository))
  /\ filter is_child (trace (run tailwind_in_repository))
     = [ EExec "npm" ["install"] "my-app";
         EExec "npx" ["tailwindcss"; "init"; "-p"] "my-app";
         EExec "git" ["add"; "-A"] "my-app";
         EExec "git" ["commit"; "-m"; "feat: added tailwindcss"] "my-app" ].
Proof.
  split; [reflexivity|]. split; [reflexivity|]. split; [|reflexivity].
  vm_compute. tauto.
Qed.

Lemma filter_child_extra_events w s a init tmpl commit b c d e :
  filter is_child (extra_events w s a init tmpl commit b c d e) =
  EExec "npx" init (cwd s)
  :: (if execa_ok w (spawned s) "npx" init && copy_ok w tmpl (cwd s) then
        EExec "git" ["add"; "-A"] (cwd s)
        :: (if execa_ok w (S (spawned s)) "git" ["add"; "-A"]
            then [EExec "git" ["commit"; "-m"; commit] (cwd s)] else [])
      else []).
Proof.
  unfold extra_events. cbv zeta.
  destruct (execa_ok w (spawned s) "npx" init); [|reflexivity].
  destruct (copy_ok w tmpl (cwd s)); [|reflexivity].
  destruct (execa_ok w (S (spawned s)) "git" ["add"; "-A"]); [|reflexivity].
  destruct (execa_ok w (S (S (spawned s))) "git" ["commit"; "-m"; commit]);
    reflexivity.
Qed.

Lemma filter_copy_extra_events w s a init tmpl commit b c d e :
  filter is_copy (extra_events w s a init tmpl commit b c d e) =
  if execa_ok w (spawned s) "npx" init then [ECopy tmpl (cwd s)] else [].
Proof.
  unfold extra_events. cbv zeta.
  destruct (execa_ok w (spawned s) "npx" init); [|reflexivity].
  destruct (copy_ok w tmpl (cwd s)); [|reflexivity].
  destruct (execa_ok w (S (spawned s)) "git" ["add"; "-A"]); [|reflexivity].
  destruct (execa_ok w (S (S (spawned s))) "git" ["commit"; "-m"; commit]);
    reflexivity.
Qed.

(** With git declined and tailwindcss the only extra, the steps after the
    install block, from any state. *)
Lemma after_install_tailwind_only w options s :
  includes (extras options) "tailwindcss" = true ->
  includes (extras options) "@changesets/cli" = false ->
  git options = false ->
  res (after_install w options s) = Ret tt
  /\ filter is_child (trace (after_install w options s))
     = EExec "npx" ["tailwindcss"; "init"; "-p"] (cwd s)
       :: (if execa_ok w (spawned s) "npx" ["tailwindcss"; "init"; "-p"]
              && copy_ok w "tailwind" (cwd s) then
             EExec "git" ["add"; "-A"] (cwd s)
             :: (if execa_ok w (S (spawned s)) "git" ["add"; "-A"]
                 then [EExec "git" ["commit"; "-m"; "feat: added tailwindcss"]
                             (cwd s)]
                 else [])
           else [])
  /\ filter is_copy (trace (after_install w options s))
     = (if execa_ok w (spawned s) "npx" ["tailwindcss"; "init"; "-p"]
        then [ECopy "tailwind" (cwd s)] else [])
  /\ exists k, In (EPrint (git_line w k)) (trace (after_install w options s)).
Proof.
  intros Ht Hc Hg.
  assert (Hgit : git_step w options s = mkRes (Ret tt) s []).
  { rewrite git_step_run, Hg. reflexivity. }
  assert (Hch : changesets_step w options s = mkRes (Ret tt) s []).
  { unfold changesets_step. rewrite Hc. reflexivity. }
  split; [rewrite after_install_res, Hgit; reflexivity|].
  split; [|split].
  - rewrite after_install_trace, Hgit. cbv zeta. cbn [res final trace app].
    rewrite Hch. cbn [res final trace app].
    rewrite (tailwind_step_run w options s Ht). cbn [trace final].
    rewrite !filter_app, filter_child_extra_events.
    rewrite (report_quiet is_child) by reflexivity.
    rewrite app_nil_l.
    assert (Hn : forall ls, filter is_child (map EPrint ls) = []).
    { induction ls; [reflexivity|exact IHls]. }
    rewrite Hn, app_nil_r. reflexivity.
  - rewrite after_install_trace, Hgit. cbv zeta. cbn [res final trace app].
    rewrite Hch. cbn [res final trace app].
    rewrite (tailwind_step_run w options s Ht). cbn [trace final].
    rewrite !filter_app, filter_copy_extra_events.
    rewrite (report_quiet is_copy) by reflexivity.
    rewrite app_nil_l.
    assert (Hn : forall ls, filter is_copy (map EPrint ls) = []).
    { induction ls; [reflexivity|exact IHls]. }
    rewrite Hn, app_nil_r. reflexivity.
  - destruct (git_line_printed w options (cwd s) Hg) as [k Hk].
    exists k. apply In_next_steps; [rewrite Hgit; reflexivity|exact Hk].
Qed.

(** C5, amended.  Let a run reach the install block with tailwindcss as
    its only extra and with git declined.  Then the run completes; the
    three children of the version-control block are not run; the tailwind
    init child is run, and its template set is copied when that child
    succeeds; [git add -A] is then run all the same, and the commit
    "feat: added tailwindcss" is run exactly when init, copy and add all
    succeeded (so it is not when [git] finds no repository); these, with
    the install child, are all the children of the run; and the closing
    instructions hold the manual git-init line. *)
Theorem tailwind_without_git w options t :
  res (before_install w (start w)) = Ret options ->
  target w = Some t ->
  includes (extras options) "tailwindcss" = true ->
  includes (extras options) "@changesets/cli" = false ->
  git options = false ->
  let n := if install options then 1 else 0 in
  let init_ok := execa_ok w n "npx" ["tailwindcss"; "init"; "-p"] in
  let copied := copy_ok w "tailwind" t in
  let added := execa_ok w (S n) "git" ["add"; "-A"] in
  res (run w) = Ret tt
  /\ filter is_child (trace (run w))
     = ((if install options
         then [EExec (packageManager options) ["install"] t] else [])
        ++ EExec "npx" ["tailwindcss"; "init"; "-p"] t
           :: (if init_ok && copied then
                 EExec "git" ["add"; "-A"] t
                 :: (if added
                     then [EExec "git" ["commit"; "-m"; "feat: added tailwindcss"] t]
                     else [])
               else []))%list
  /\ filter is_copy (trace (run w))
     = ECopy (base_template (types options)) t
       :: (if init_ok then [ECopy "tailwind" t] else [])
  /\ exists k, In (EPrint (git_line w k)) (trace (run w)).
Proof.
  intros Hb Ht Htw Hcs Hg n init_ok copied added.
  destruct (run_after_templates w options Hb t Ht) as [Hres Htr].
  destruct (before_install_ret w options Hb) as (t' & Ht' & _ & _ & Hch & Hcp).
  rewrite Ht in Ht'. injection Ht' as <-.
  destruct (install_step_shape w options {| cwd := t; spawned := 0 |})
    as (o' & tr & E & Ho' & Hchild & Hcopy & _).
  cbn [cwd spawned] in E, Hchild. fold n in E.
  assert (Hsame : extras o' = extras options /\ git o' = git options).
  { destruct Ho' as [->|[_ ->]]; split; reflexivity. }
  destruct Hsame as [He Hgo].
  rewrite <- He in Htw, Hcs. rewrite <- Hgo in Hg.
  destruct (after_install_tailwind_only w o' {| cwd := t; spawned := n |}
              Htw Hcs Hg) as (A1 & A2 & A3 & k & A4).
  cbn [cwd spawned] in A2, A3.
  rewrite res_bind, E in Hres. cbn [res final] in Hres.
  rewrite trace_bind, E in Htr. cbn [res final trace] in Htr.
  split; [rewrite Hres; exact A1|].
  rewrite Htr, !filter_app, Hch, Hcp, Hchild, Hcopy, A2, A3.
  split; [reflexivity|]. split; [reflexivity|].
  exists k. apply in_or_app. right. apply in_or_app. right. exact A4.
Qed.

Lemma tailwind_without_git_witness :
  res (run tailwind_no_repository) = Ret tt
  /\ filter is_child (trace (run tailwind_no_repository))
     = [ EExec "npm" ["install"] "my-app";
         EExec "npx" ["tailwindcss"; "init"; "-p"] "my-app";
         EExec "git" ["add"; "-A"] "my-app" ]
  /\ filter is_copy (trace (run tailwind_no_repository))
     = [ECopy "javascript" "my-app"; ECopy "tailwind" "my-app"]
  /\ exists k, In (EPrint (git_line tailwind_no_repository k))
                  (trace (run tailwind_no_repository)).
Proof.
  exact (tailwind_without_git tailwind_no_repository
           {| types := "checkjs"; features := []; extras := ["tailwindcss"];
              git := false; packageManager := "npm"; install := true |}
           "my-app" eq_refl eq_refl eq_refl eq_refl eq_refl).
Defined.

(** * Beyond the claims *)

(** ** Exits *)

Section Exits.

Lemma never_exits_ret {A : Type} (a : A) : never_exits (ret a).
Proof. intros s c. discriminate. Qed.

Lemma never_exits_throw {A : Type} e : never_exits (@throw A e).
Proof. intros s c. discriminate. Qed.

Lemma never_exits_emit e : never_exits (emit e).
Proof. intros s c. discriminate. Qed.

Lemma never_exits_get_cwd : never_exits get_cwd.
Proof. intros s c. discriminate. Qed.

Lemma never_exits_execa w cmd args : never_exits (execa w cmd args).
Proof.
  intros s c. rewrite execa_run. cbn [res].
  destruct (execa_ok w (spawned s) cmd args); discriminate.
Qed.

Lemma never_exits_bind {A B : Type} (m : M A) (f : A -> M B) :
  never_exits m -> (forall a, never_exits (f a)) -> never_exits (bind m f).
Proof.
  intros Hm Hf s c. rewrite res_bind.
  destruct (res (m s)) as [a|c'|e] eqn:E.
  - apply Hf.
  - exfalso. exact (Hm s c' E).
  - discriminate.
Qed.

Lemma never_exits_try_catch {A : Type} (body handler : M A) :
  never_exits body -> never_exits handler -> never_exits (try_catch body handler).
Proof.
  intros Hb Hh s c. unfold try_catch.
  destruct (res (body s)) as [a|c'|e] eqn:E.
  - rewrite E. discriminate.
  - exfalso. exact (Hb s c' E).
  - cbn [res]. apply Hh.
Qed.

Lemma never_exits_when b (m : M unit) : never_exits m -> never_exits (when b m).
Proof. intros H. destruct b; [exact H|apply never_exits_ret]. Qed.

Lemma never_exits_resolveDeps w options deps :
  never_exits (resolveDeps w options deps).
Proof. intros s c. rewrite resolveDeps_run. discriminate. Qed.

End Exits.

Ltac never_exits_step :=
  match goal with
  | |- never_exits (bind _ _) => apply never_exits_bind; [|intro]
  | |- never_exits (ret _) => apply never_exits_ret
  | |- never_exits (throw _) => apply never_exits_throw
  | |- never_exits get_cwd => apply never_exits_get_cwd
  | |- never_exits (emit _) => apply never_exits_emit
  | |- never_exits (try_catch _ _) => apply never_exits_try_catch
  | |- never_exits (when _ _) => apply never_exits_when
  | |- never_exits (execa _ _ _) => apply never_exits_execa
  | |- never_exits (resolveDeps _ _ _) => apply never_exits_resolveDeps
  | |- never_exits (if ?b then _ else _) => destruct b
  | |- never_exits (match ?x with _ => _ end) => destruct x
  end.

Ltac never_exits_auto := cbv zeta; repeat never_exits_step.

Lemma scaffold_never_exits w options : never_exits (scaffold w options).
Proof. unfold_stages. never_exits_auto. Qed.

Lemma ask_options_res w s :
  (exists o, res (ask_options w s) = Ret o) \/ res (ask_options w s) = Exit 1.
Proof.
  unfold ask_options.
  repeat (rewrite res_bind, group_step_run; cbn [res final];
          match goal with
          | |- context [match ?a with Cancelled => _ | Answered _ => _ end] =>
              destruct a; [right; reflexivity|]
          end).
  left. eexists. reflexivity.
Qed.

Lemma prelude_exits_only w : exits_only 1 (prelude w).
Proof.
  intros s c. unfold prelude, print.
  rewrite res_bind. cbn [emit res final].
  rewrite res_bind. cbn [emit res final].
  rewrite res_bind, resolve_cwd_run.
  destruct (String.eqb (cwd s) ".").
  - destruct (ask_dir w) as [|d]; cbn [res final].
    + intros E. injection E as <-. reflexivity.
    + rewrite res_bind, confirm_gate_run.
      match goal with
      | |- context [fs_at w (cwd ?x)] =>
          destruct (fs_at w (cwd x)) as [[|[|e es]]|]; cbn [res final]
      end; try discriminate;
        try (destruct (ask_options_res w
                         (if String.eqb d "" then s
                          else {| cwd := d; spawned := spawned s |}))
               as [[o ->]| ->];
             [discriminate|intros E; injection E as <-; reflexivity]).
      destruct (ask_force w) as [|[|]];
        try (intros E; injection E as <-; reflexivity).
      destruct (ask_options_res w
                  (if String.eqb d "" then s
                   else {| cwd := d; spawned := spawned s |}))
        as [[o ->]| ->];
        [discriminate|intros E; injection E as <-; reflexivity].
  - cbn [res final]. rewrite res_bind, confirm_gate_run.
    destruct (fs_at w (cwd s)) as [[|[|e es]]|]; cbn [res final];
      try discriminate;
      try (destruct (ask_options_res w s) as [[o ->]| ->];
           [discriminate|intros E; injection E as <-; reflexivity]).
    destruct (ask_force w) as [|[|]];
      try (intros E; injection E as <-; reflexivity).
    destruct (ask_options_res w s) as [[o ->]| ->];
      [discriminate|intros E; injection E as <-; reflexivity].
Qed.

(** X1.  Whenever the process ends in [process.exit], the code is 1 and
    nothing has been done yet: the generator has not been called, no file
    written, no template copied, no child spawned. *)
Theorem exit_is_early w c :
  res (run w) = Exit c ->
  c = 1%Z /\ filter mutates (trace (run w)) = [].
Proof.
  rewrite run_prelude, res_bind, trace_bind, filter_app.
  rewrite (prelude_quiet mutates) by reflexivity.
  destruct (res (prelude w (start w))) as [o|c'|e] eqn:E.
  - intros H. exfalso. exact (scaffold_never_exits w o _ c H).
  - intros H. injection H as <-. split; [|reflexivity].
    exact (prelude_exits_only w (start w) c' E).
  - discriminate.
Qed.

Lemma exit_is_early_witness :
  1%Z = 1%Z /\ filter mutates (trace (run cancelled_at_git)) = [].
Proof. exact (exit_is_early cancelled_at_git 1%Z eq_refl). Defined.

(** ** The questions *)

(** X2.  The questions of [p.group] are asked in their fixed order, the
    install question naming the package manager just chosen.  The first
    cancelled one ends the process with code 1 and no later question is
    asked; when none is cancelled all six are asked and the object that is
    returned holds, field by field, the six answers given.  The state is
    left as it was. *)
Theorem group_questions w s :
  let n := answered_before_cancel w in
  trace (ask_options w s) = firstn (S n) (questions (chosen_manager w))
  /\ final (ask_options w s) = s
  /\ (n < 6 -> res (ask_options w s) = Exit 1)
  /\ (n = 6 ->
      exists o,
        res (ask_options w s) = Ret o
        /\ ask_types w = Answered (types o)
        /\ ask_features w = Answered (features o)
        /\ ask_extras w = Answered (extras o)
        /\ ask_git w = Answered (git o)
        /\ ask_packageManager w = Answered (packageManager o)
        /\ ask_install w = Answered (install o)).
Proof.
  unfold ask_options, answered_before_cancel, chosen_manager, questions.
  split; [|split; [apply ask_options_stateless|split]].
  - destruct (ask_types w); [reflexivity|].
    destruct (ask_features w); [reflexivity|].
    destruct (ask_extras w); [reflexivity|].
    destruct (ask_git w); [reflexivity|].
    destruct (ask_packageManager w); [reflexivity|].
    destruct (ask_install w); reflexivity.
  - destruct (ask_types w); [reflexivity|].
    destruct (ask_features w); [reflexivity|].
    destruct (ask_extras w); [reflexivity|].
    destruct (ask_git w); [reflexivity|].
    destruct (ask_packageManager w); [reflexivity|].
    destruct (ask_install w); [reflexivity|]. intros H. lia.
  - destruct (ask_types w) as [|ty]; [discriminate|].
    destruct (ask_features w) as [|fe]; [discriminate|].
    destruct (ask_extras w) as [|ex]; [discriminate|].
    destruct (ask_git w) as [|gi]; [discriminate|].
    destruct (ask_packageManager w) as [|pm]; [discriminate|].
    destruct (ask_install w) as [|ins]; [discriminate|].
    intros _.
    exists {| types := ty; features := fe; extras := ex; git := gi;
              packageManager := pm; install := ins |}.
    repeat split; reflexivity.
Qed.

Lemma group_questions_witness :
  trace (ask_options cancelled_at_git state0)
  = [EPrompt PTypes; EPrompt PFeatures; EPrompt PExtras; EPrompt PGit]
  /\ res (ask_options cancelled_at_git state0) = Exit 1%Z
  /\ res (ask_options custom_answers state0)
     = Ret {| types := "typescript"; features := ["eslint"; "vitest"];
              extras := ["tailwindcss"]; git := false;
              packageManager := "pnpm"; install := false |}.
Proof.
  pose proof (group_questions cancelled_at_git state0) as H.
  cbv zeta in H. destruct H as (H1 & _ & H3 & _).
  split; [exact H1|]. split.
  - apply H3. vm_compute. lia.
  - pose proof (group_questions custom_answers state0) as G.
    cbv zeta in G. destruct G as (_ & _ & _ & G4).
    destruct (G4 eq_refl) as ([ty fe ex gi pm ins] & E & A1 & A2 & A3 & A4 & A5 & A6).
    rewrite E. cbn [types features extras git packageManager install] in *.
    injection A1 as <-. injection A2 as <-. injection A3 as <-.
    injection A4 as <-. injection A5 as <-. injection A6 as <-.
    reflexivity.
Defined.

(** X3.  When the target exists and is not a directory, reading it throws
    before the confirmation and before any question of the group: the run
    is rejected with nothing done, its whole trace being the banner, the
    intro and what resolving the target showed. *)
Theorem target_file_rejects w t :
  target w = Some t ->
  fs_at w t = Some FsFile ->
  res (run w) = Throw "ENOTDIR"
  /\ trace (run w)
     = EPrint (banner w) :: EIntro "Welcome!" :: trace (resolve_cwd w (start w))
  /\ filter mutates (trace (run w)) = [].
Proof.
  intros Ht Hf. apply target_some in Ht. destruct Ht as [Hres Hcwd].
  assert (Hg : confirm_gate w (final (resolve_cwd w (start w)))
               = mkRes (Throw "ENOTDIR") (final (resolve_cwd w (start w))) []).
  { rewrite confirm_gate_run, Hcwd, Hf. reflexivity. }
  assert (Htr : trace (run w)
                = EPrint (banner w) :: EIntro "Welcome!"
                  :: trace (resolve_cwd w (start w))).
  { rewrite run_trace, Hres. unfold after_target.
    rewrite trace_bind, Hg. cbn [res trace]. rewrite !app_nil_r. reflexivity. }
  split; [|split; [exact Htr|]].
  - rewrite run_res, Hres. unfold after_target. rewrite res_bind, Hg.
    reflexivity.
  - rewrite Htr. cbn [filter mutates].
    apply (resolve_cwd_quiet mutates w eq_refl).
Qed.

Lemma target_file_rejects_witness :
  res (run target_is_file) = Throw "ENOTDIR"
  /\ trace (run target_is_file)
     = [EPrint (banner target_is_file); EIntro "Welcome!"].
Proof.
  destruct (target_file_rejects target_is_file "my-app" eq_refl eq_refl)
    as (H1 & H2 & _).
  split; [exact H1|exact H2].
Defined.

(** ** The generator and the manifest *)

Lemma after_generate_quiet w options :
  quiet is_generate
        (update_manifest w options ;;
         copy_base w options ;;
         o <- install_step w options ;;
         after_install w o).
Proof. unfold_stages. quiet_auto. Qed.

Lemma after_manifest_quiet_write w options :
  quiet is_write
        (copy_base w options ;;
         o <- install_step w options ;;
         after_install w o).
Proof. unfold_stages. quiet_auto. Qed.

(** X4.  The generator is called at most once in a run.  When it is
    called, the type-checking mode and the features were chosen, the call
    is for the target directory, for the project name that the target
    resolves to and for the template ['skeletonlib']; its [types] is the
    chosen mode, except that the choice ['null'] is passed as no mode at
    all, never as the string; and each of its four flags tells whether the
    feature of that name was selected. *)
Theorem generator_call w d g :
  In (EGenerate d g) (trace (run w)) ->
  filter is_generate (trace (run w)) = [EGenerate d g]
  /\ target w = Some d
  /\ gen_name g = path_name w d
  /\ gen_template g = "skeletonlib"
  /\ gen_types g <> Some "null"
  /\ exists ty fe,
       ask_types w = Answered ty
       /\ ask_features w = Answered fe
       /\ (ty = "null" -> gen_types g = None)
       /\ (ty <> "null" -> gen_types g = Some ty)
       /\ gen_prettier g = includes fe "prettier"
       /\ gen_eslint g = includes fe "eslint"
       /\ gen_playwright g = includes fe "playwright"
       /\ gen_vitest g = includes fe "vitest".
Proof.
  intros Hin.
  assert (Hf : In (EGenerate d g) (filter is_generate (trace (run w)))).
  { apply filter_In. split; [exact Hin|reflexivity]. }
  clear Hin. rewrite run_prelude in *.
  rewrite trace_bind, filter_app in *.
  rewrite (prelude_quiet is_generate) in * by reflexivity.
  cbn [app] in *.
  destruct (res (prelude w (start w))) as [o|c|e] eqn:Ho; [|destruct Hf..].
  destruct (prelude_ret w o Ho) as (t & Htarget & Hfinal & _ & Hopts).
  rewrite Hfinal in *. unfold scaffold in *.
  rewrite trace_bind, filter_app, generate_run in *.
  cbn [res final trace filter is_generate app cwd] in *.
  assert (Hq : forall r : outcome unit,
             filter is_generate
               match r with
               | Ret _ =>
                   trace ((update_manifest w o ;; copy_base w o ;;
                           o' <- install_step w o ;; after_install w o')
                            {| cwd := t; spawned := 0 |})
               | _ => []
               end = []).
  { intros [[]|c|e]; [apply after_generate_quiet|reflexivity..]. }
  rewrite Hq in *. destruct Hf as [E|[]]. injection E as <- <-.
  destruct (ask_options_ret w _ o Hopts) as (Hty & Hfe & _).
  split; [reflexivity|]. split; [exact Htarget|].
  split; [reflexivity|]. split; [reflexivity|].
  split.
  { cbn [gen_types generator_options].
    destruct (String.eqb_spec (types o) "null") as [_|Hne]; [discriminate|].
    intros E. injection E as E. contradiction. }
  exists (types o), (features o).
  split; [exact Hty|]. split; [exact Hfe|].
  cbn [gen_types gen_prettier gen_eslint gen_playwright gen_vitest
       generator_options].
  split; [intros ->; reflexivity|].
  split; [intros Hne; rewrite (proj2 (String.eqb_neq _ _) Hne); reflexivity|].
  repeat split; reflexivity.
Qed.

Lemma generator_call_witness :
  filter is_generate (trace (run happy))
  = [EGenerate "my-app" (generator_options happy
                           {| types := "checkjs"; features := []; extras := [];
                              git := true; packageManager := "npm";
                              install := true |} "my-app")]
  /\ target happy = Some "my-app".
Proof.
  destruct (generator_call happy "my-app"
              (generator_options happy
                 {| types := "checkjs"; features := []; extras := [];
                    git := true; packageManager := "npm"; install := true |}
                 "my-app")) as (H1 & H2 & _).
  - vm_compute. tauto.
  - split; [exact H1|exact H2].
Defined.

(** X5.  The generator has no handler.  When the choices are collected and
    the generator throws, the run is rejected with its exception, and
    nothing that follows the generator happens: the manifest is not read,
    the registry not asked, nothing is written, copied or spawned, and no
    summary is printed. *)
Theorem generator_failure_is_fatal w options :
  res (prelude w (start w)) = Ret options ->
  generator_ok w = false ->
  res (run w) = Throw "createSvelteKitApp"
  /\ filter follows_generator (trace (run w)) = []
  /\ exists d, filter is_generate (trace (run w))
               = [EGenerate d (generator_options w options d)].
Proof.
  intros Ho Hg.
  destruct (prelude_ret w options Ho) as (t & _ & Hfinal & _ & _).
  rewrite run_prelude, res_bind, trace_bind, !filter_app, Ho, Hfinal.
  rewrite (prelude_quiet follows_generator) by reflexivity.
  rewrite (prelude_quiet is_generate) by reflexivity.
  unfold scaffold.
  rewrite res_bind, trace_bind, generate_run, Hg. cbn [res final trace cwd].
  split; [reflexivity|]. split; [reflexivity|].
  exists t. reflexivity.
Qed.

Lemma generator_failure_is_fatal_witness :
  res (run generator_fails) = Throw "createSvelteKitApp"
  /\ filter follows_generator (trace (run generator_fails)) = [].
Proof.
  destruct (generator_failure_is_fatal generator_fails
              {| types := "checkjs"; features := []; extras := [];
                 git := true; packageManager := "npm"; install := true |}
              eq_refl eq_refl) as (H1 & H2 & _).
  split; [exact H1|exact H2].
Defined.

Lemma filter_resolve_events P w l :
  (forall u, P (ERequest u) = false) ->
  (forall x, P (EPrint x) = false) ->
  filter P (flat_map (fun p => resolve_events w p None) l) = [].
Proof.
  intros Hr Hp. induction l as [|p l IH]; [reflexivity|].
  cbn [flat_map]. rewrite filter_app, IH, app_nil_r.
  unfold resolve_events. cbn [filter]. rewrite Hr.
  destruct (caret_version _); cbn [filter]; rewrite ?Hp; reflexivity.
Qed.

Lemma assign_devDeps w options :
  assign_versions w (selected_packages options devDeps) []
  = map (fun p => (p, resolved_version w p None))
        (selected_packages options devDeps).
Proof.
  unfold selected_packages, devDeps. cbn [flat_map fst snd].
  destruct (includes (extras options) "@changesets/cli");
    destruct (includes (extras options) "tailwindcss"); reflexivity.
Qed.

Lemma generate_quiet P w options :
  (forall d g, P (EGenerate d g) = false) -> quiet P (generate w options).
Proof. intros H. unfold generate. quiet_auto. Qed.

Lemma update_manifest_quiet P w options :
  (forall d n, P (EReadFile d n) = false) ->
  (forall d n j, P (EWriteFile d n j) = false) ->
  (forall m, P (ESpinStart m) = false) ->
  (forall m, P (ESpinStop m) = false) ->
  (forall u, P (ERequest u) = false) ->
  (forall l, P (EPrint l) = false) ->
  quiet P (update_manifest w options).
Proof. intros H1 H2 H3 H4 H5 H6. unfold update_manifest. quiet_auto. Qed.

(** X6.  The manifest is written at most once in a run.  When it is, the
    file is [package.json] in the target directory, the generated manifest
    had been read and the choices collected, and what is written is the
    merge of that manifest with the overlay: the packages of the selected
    extras, each at the version the resolver gave, and an empty
    [scripts]. *)
Theorem manifest_written_once w d n j :
  In (EWriteFile d n j) (trace (run w)) ->
  filter is_write (trace (run w)) = [EWriteFile d n j]
  /\ n = "package.json"
  /\ target w = Some d
  /\ exists m options,
       manifest w = Some m
       /\ res (prelude w (start w)) = Ret options
       /\ j = mergeObjects m
                (JObj [ ("devDependencies",
                         JObj (map (fun p => (p, JStr (resolved_version w p None)))
                                   (selected_packages options devDeps)));
                        ("scripts", JObj []) ]).
Proof.
  intros Hin.
  assert (Hf : In (EWriteFile d n j) (filter is_write (trace (run w)))).
  { apply filter_In. split; [exact Hin|reflexivity]. }
  clear Hin. rewrite run_prelude in *.
  rewrite trace_bind, filter_app in *.
  rewrite (prelude_quiet is_write) in * by reflexivity.
  cbn [app] in *.
  destruct (res (prelude w (start w))) as [o|c|e] eqn:Ho; [|destruct Hf..].
  destruct (prelude_ret w o Ho) as (t & Htarget & Hfinal & _ & _).
  rewrite Hfinal in *. unfold scaffold in *.
  rewrite trace_bind, filter_app, generate_stateless in *.
  rewrite (generate_quiet is_write) in * by reflexivity.
  cbn [app] in *.
  destruct (res (generate w o _)) as [[]|c|e]; [|destruct Hf..].
  rewrite trace_bind, filter_app, update_manifest_run in *.
  destruct (manifest w) as [m|] eqn:Hm; [|destruct Hf].
  cbn [res final trace filter is_write] in *.
  rewrite filter_app, filter_resolve_events in * by reflexivity.
  cbn [filter is_write app cwd] in *.
  assert (Hq : forall r : outcome unit,
             filter is_write
               match r with
               | Ret _ =>
                   trace ((copy_base w o ;;
                           o' <- install_step w o ;; after_install w o')
                            {| cwd := t; spawned := 0 |})
               | _ => []
               end = []).
  { intros [[]|c|e]; [apply after_manifest_quiet_write|reflexivity..]. }
  rewrite Hq in *. destruct Hf as [E|[]]. injection E as <- <- <-.
  split; [reflexivity|]. split; [reflexivity|]. split; [exact Htarget|].
  exists m, o. split; [reflexivity|]. split; [reflexivity|].
  unfold merged_manifest, newPackageJson.
  rewrite assign_devDeps, map_map. reflexivity.
Qed.

Lemma manifest_written_once_witness :
  filter is_write (trace (run tailwind_no_repository))
  = [EWriteFile "my-app" "package.json"
       (JObj [ ("name", JStr "my-app");
               ("version", JStr "0.0.1");
               ("scripts", JObj [("dev", JStr "vite dev")]);
               ("devDependencies",
                JObj [ ("svelte", JStr "^4.0.0");
                       ("tailwindcss", JStr "^1.0.0");
                       ("postcss", JStr "^1.0.0");
                       ("autoprefixer", JStr "^1.0.0") ]);
               ("type", JStr "module") ])]
  /\ target tailwind_no_repository = Some "my-app".
Proof.
  destruct (manifest_written_once tailwind_no_repository "my-app" "package.json"
              (JObj [ ("name", JStr "my-app");
                      ("version", JStr "0.0.1");
                      ("scripts", JObj [("dev", JStr "vite dev")]);
                      ("devDependencies",
                       JObj [ ("svelte", JStr "^4.0.0");
                              ("tailwindcss", JStr "^1.0.0");
                              ("postcss", JStr "^1.0.0");
                              ("autoprefixer", JStr "^1.0.0") ]);
                      ("type", JStr "module") ])) as (H1 & _ & H3 & _).
  - vm_compute. tauto.
  - split; [exact H1|exact H3].
Defined.

(** X7.  Reading the generated manifest has no handler either.  When the
    generator returned and [package.json] cannot be read or parsed, the run
    is rejected, and nothing that follows the read happens: no request to
    the registry, no write, no copy, no child, no summary. *)
Theorem unreadable_manifest_is_fatal w options :
  res (prelude w (start w)) = Ret options ->
  generator_ok w = true ->
  manifest w = None ->
  res (run w) = Throw "package.json"
  /\ filter follows_manifest (trace (run w)) = [].
Proof.
  intros Ho Hg Hm.
  destruct (prelude_ret w options Ho) as (t & _ & Hfinal & _ & _).
  rewrite run_prelude, res_bind, trace_bind, !filter_app, Ho, Hfinal.
  rewrite (prelude_quiet follows_manifest) by reflexivity.
  unfold scaffold.
  rewrite res_bind, trace_bind, generate_run, Hg. cbn [res final trace cwd].
  rewrite res_bind, trace_bind, update_manifest_run, Hm.
  split; reflexivity.
Qed.

Lemma unreadable_manifest_is_fatal_witness :
  res (run manifest_missing) = Throw "package.json"
  /\ filter follows_manifest (trace (run manifest_missing)) = [].
Proof.
  exact (unreadable_manifest_is_fatal manifest_missing
           {| types := "checkjs"; features := []; extras := [];
              git := true; packageManager := "npm"; install := true |}
           eq_refl eq_refl eq_refl).
Defined.

(** X8.  The copy of the base templates has no handler.  When the manifest
    has been written and the copy fails, the run is rejected after that one
    copy: no child is spawned, no note shown, no summary printed. *)
Theorem base_copy_failure_is_fatal w options t m :
  res (prelude w (start w)) = Ret options ->
  target w = Some t ->
  generator_ok w = true ->
  manifest w = Some m ->
  write_ok w = true ->
  copy_ok w (base_template (types options)) t = false ->
  res (run w) = Throw "copy"
  /\ filter is_copy (trace (run w)) = [ECopy (base_template (types options)) t]
  /\ filter follows_templates (trace (run w)) = [].
Proof.
  intros Ho Ht Hg Hm Hw Hc.
  destruct (prelude_ret w options Ho) as (t' & Ht' & Hfinal & _ & _).
  rewrite Ht in Ht'. injection Ht' as <-.
  rewrite run_prelude, res_bind, trace_bind, !filter_app, Ho, Hfinal.
  rewrite (prelude_quiet follows_templates) by reflexivity.
  rewrite (prelude_quiet is_copy) by reflexivity.
  unfold scaffold.
  rewrite res_bind, trace_bind, !filter_app, generate_run, Hg.
  cbn [res final trace cwd filter is_copy follows_templates app].
  rewrite res_bind, trace_bind, !filter_app.
  rewrite (update_manifest_quiet follows_templates) by reflexivity.
  rewrite (update_manifest_quiet is_copy) by reflexivity.
  rewrite update_manifest_run, Hm, Hw. cbn [res final app].
  rewrite res_bind, trace_bind, copy_base_run. cbn [res final trace cwd].
  rewrite Hc. split; [reflexivity|]. split; reflexivity.
Qed.

Lemma base_copy_failure_is_fatal_witness :
  res (run base_copy_fails) = Throw "copy"
  /\ filter is_copy (trace (run base_copy_fails)) = [ECopy "javascript" "my-app"]
  /\ filter follows_templates (trace (run base_copy_fails)) = [].
Proof.
  exact (base_copy_failure_is_fatal base_copy_fails
           {| types := "checkjs"; features := []; extras := [];
              git := true; packageManager := "npm"; install := true |}
           "my-app" sample_manifest eq_refl eq_refl eq_refl eq_refl eq_refl
           eq_refl).
Defined.

(** ** The summary *)

(** X9.  The closing instructions always return and leave the state alone.
    They print a heading, then the commands that are left to the user, in
    the order cd, install, git, dev server, numbered from 1 on without a
    gap whichever of the first three are shown, then the hint on closing
    the dev server. *)
Theorem next_steps_numbering w options s :
  next_steps w options s =
  mkRes (Ret tt) s
        (map EPrint
             (steps_heading
              :: numbered w 1 (manual_steps w options (cwd s))
              ++ [steps_closing w])%list).
Proof.
  rewrite next_steps_run. do 2 f_equal.
  unfold next_steps_lines, manual_steps, install_line, git_line,
    steps_heading, steps_closing. cbv zeta.
  destruct (String.eqb (path_relative w (cwd s)) "");
    destruct (install options); destruct (git options); reflexivity.
Qed.

Lemma extras_quiet P w options :
  (forall m, P (ESpinStart m) = false) ->
  (forall m, P (ESpinStop m) = false) ->
  (forall m t, P (ENote m t) = false) ->
  (forall t d, P (ECopy t d) = false) ->
  (forall c a d, P (EExec c a d) = false) ->
  quiet P (changesets_step w options) /\ quiet P (tailwind_step w options).
Proof.
  intros H1 H2 H3 H4 H5.
  split; [unfold changesets_step|unfold tailwind_step]; unfold copy;
    quiet_auto.
Qed.

Lemma report_outro w options s :
  filter is_outro (trace (report w options s)) = [EOutro "Your project is ready!"].
Proof.
  unfold report. rewrite trace_bind. cbn [emit res final trace app filter is_outro].
  f_equal.
  match goal with
  | |- filter is_outro (trace (?m s)) = [] =>
      assert (Q : quiet is_outro m); [|apply Q]
  end.
  unfold print. quiet_auto.
Qed.

Lemma after_install_outro w options s :
  filter is_outro (trace (after_install w options s)) =
  match res (after_install w options s) with
  | Ret _ => [EOutro "Your project is ready!"]
  | _ => []
  end.
Proof.
  rewrite after_install_res, after_install_trace, filter_app.
  assert (Hg : filter is_outro (trace (git_step w options s)) = []).
  { rewrite git_step_run. cbv zeta.
    destruct (git options); [|reflexivity].
    destruct (execa_ok w _ _ _); [|reflexivity].
    destruct (execa_ok w _ _ _); reflexivity. }
  rewrite Hg.
  destruct (res (git_step w options s)); [|reflexivity..].
  cbv zeta. rewrite !filter_app.
  rewrite (proj1 (extras_quiet is_outro w options
                    ltac:(reflexivity) ltac:(reflexivity) ltac:(reflexivity)
                    ltac:(reflexivity) ltac:(reflexivity))).
  rewrite (proj2 (extras_quiet is_outro w options
                    ltac:(reflexivity) ltac:(reflexivity) ltac:(reflexivity)
                    ltac:(reflexivity) ltac:(reflexivity))).
  rewrite report_outro.
  assert (Hn : forall ls, filter is_outro (map EPrint ls) = []).
  { induction ls; [reflexivity|exact IHls]. }
  rewrite Hn. reflexivity.
Qed.

(** X10.  The closing message "Your project is ready!" is shown exactly
    when the run completes normally, and then once: a run that exits or is
    rejected never shows it. *)
Theorem outro_iff_completed w :
  filter is_outro (trace (run w)) =
  match res (run w) with
  | Ret _ => [EOutro "Your project is ready!"]
  | _ => []
  end.
Proof.
  rewrite run_stages, res_bind, trace_bind, filter_app.
  rewrite (before_install_quiet is_outro) by reflexivity.
  destruct (res (before_install w (start w))) as [o|c|e]; [|reflexivity..].
  rewrite res_bind, trace_bind, filter_app.
  destruct (install_step_shape w o (final (before_install w (start w))))
    as (o' & tr & E & _ & _ & _ & Houtro).
  rewrite E. cbn [res final trace]. rewrite Houtro.
  apply after_install_outro.
Qed.

(** ** The extras *)

Lemma extra_events_notes w s a init tmpl commit b c d e :
  filter is_note (extra_events w s a init tmpl commit b c d e)
  = (if extra_ok w s init tmpl commit then [] else [ENote d (Some e)])
  /\ filter is_spin_stop (extra_events w s a init tmpl commit b c d e)
     = [ESpinStop (if extra_ok w s init tmpl commit then b else c)].
Proof.
  unfold extra_events, extra_ok. cbv zeta.
  destruct (execa_ok w (spawned s) "npx" init); [|split; reflexivity].
  destruct (copy_ok w tmpl (cwd s)); [|split; reflexivity].
  destruct (execa_ok w (S (spawned s)) "git" ["add"; "-A"]);
    [|split; reflexivity].
  destruct (execa_ok w (S (S (spawned s))) "git" ["commit"; "-m"; commit]);
    split; reflexivity.
Qed.

(** X11.  The block of a selected extra always returns.  It ends its
    spinner once: with the success message when the init child, the copy,
    [git add] and [git commit] all succeed, and otherwise with the failure
    message followed by one note giving the manual init command.  So a
    failing [git add] reports the extra as failed even when its init
    succeeded. *)
Theorem extra_block_reports w options s :
  (includes (extras options) "@changesets/cli" = true ->
   let ok := extra_ok w s ["changeset"; "init"] "changesets"
                      "feat: added changeset" in
   res (changesets_step w options s) = Ret tt
   /\ filter is_spin_stop (trace (changesets_step w options s))
      = [ESpinStop (if ok then "Initialized changesets"
                    else red w "Failed to initialize changesets")]
   /\ filter is_note (trace (changesets_step w options s))
      = (if ok then []
         else [ENote "npx changeset init" (Some "Initialize changesets manually.")]))
  /\ (includes (extras options) "tailwindcss" = true ->
      let ok := extra_ok w s ["tailwindcss"; "init"; "-p"] "tailwind"
                         "feat: added tailwindcss" in
      res (tailwind_step w options s) = Ret tt
      /\ filter is_spin_stop (trace (tailwind_step w options s))
         = [ESpinStop (if ok then "Initialized tailwindcss"
                       else red w "Failed to initialize tailwindcss")]
      /\ filter is_note (trace (tailwind_step w options s))
         = (if ok then []
            else [ENote "npx tailwindcss init -p"
                        (Some "Initialize tailwindcss manually.")])).
Proof.
  split; intros H ok; subst ok.
  - rewrite (changesets_step_run w options s H). cbn [res trace].
    split; [reflexivity|]. split; apply extra_events_notes.
  - rewrite (tailwind_step_run w options s H). cbn [res trace].
    split; [reflexivity|]. split; apply extra_events_notes.
Qed.

Lemma extra_block_reports_witness :
  res (tailwind_step tailwind_no_repository
         {| types := "checkjs"; features := []; extras := ["tailwindcss"];
            git := false; packageManager := "npm"; install := true |}
         state0) = Ret tt
  /\ filter is_note
       (trace (tailwind_step tailwind_no_repository
                 {| types := "checkjs"; features := []; extras := ["tailwindcss"];
                    git := false; packageManager := "npm"; install := true |}
                 state0))
     = [ENote "npx tailwindcss init -p" (Some "Initialize tailwindcss manually.")].
Proof.
  destruct (proj2 (extra_block_reports tailwind_no_repository
                     {| types := "checkjs"; features := [];
                        extras := ["tailwindcss"]; git := false;
                        packageManager := "npm"; install := true |}
                     state0) eq_refl) as (H1 & _ & H3).
  split; [exact H1|exact H3].
Defined.

Lemma In_extra_init w s t a init tmpl commit b c d e :
  cwd s = t ->
  In (EExec "npx" init t) (extra_events w s a init tmpl commit b c d e).
Proof. intros <-. unfold extra_events. cbv zeta. right. left. reflexivity. Qed.

Lemma install_step_keeps w options s o' :
  res (install_step w options s) = Ret o' ->
  git o' = git options /\ extras o' = extras options
  /\ packageManager o' = packageManager options
  /\ types o' = types options /\ features o' = features options.
Proof.
  intros H. destruct (install_step_shape w options s) as (o & tr & E & Ho & _).
  rewrite E in H. injection H as <-.
  destruct Ho as [->|[_ ->]]; repeat split; reflexivity.
Qed.

(** X12.  Once the base templates are copied, only the version-control
    block can stop a run.  When git was declined, or its three children
    succeed, the run completes normally whatever the install child, the
    copies and the children of the extras do; and the init child of every
    selected extra is run, a failure in the changesets block not keeping
    the tailwind block from running. *)
Theorem only_version_control_stops w options t :
  res (before_install w (start w)) = Ret options ->
  target w = Some t ->
  git options = false
  \/ git_children_ok w (if install options then 1 else 0) = true ->
  res (run w) = Ret tt
  /\ (includes (extras options) "@changesets/cli" = true ->
      In (EExec "npx" ["changeset"; "init"] t) (trace (run w)))
  /\ (includes (extras options) "tailwindcss" = true ->
      In (EExec "npx" ["tailwindcss"; "init"; "-p"] t) (trace (run w))).
Proof.
  intros Hb Ht Hg.
  destruct (run_after_templates w options Hb t Ht) as [Hres Htr].
  destruct (install_step_shape w options {| cwd := t; spawned := 0 |})
    as (o' & tr & E & _ & _).
  cbn [cwd spawned] in E.
  assert (Hk : res (install_step w options {| cwd := t; spawned := 0 |}) = Ret o').
  { rewrite E. reflexivity. }
  destruct (install_step_keeps w options _ o' Hk) as (Hgo & Hex & _).
  set (s1 := {| cwd := t;
                spawned := if install options then 1 else 0 |}) in *.
  rewrite res_bind, E in Hres. cbn [res final] in Hres.
  rewrite trace_bind, E in Htr. cbn [res final trace] in Htr.
  assert (Hgit : res (git_step w o' s1) = Ret tt).
  { apply git_step_ok. rewrite Hgo. exact Hg. }
  split; [rewrite Hres, after_install_res, Hgit; reflexivity|].
  rewrite Htr, after_install_trace, Hgit. cbv zeta. rewrite <- Hex.
  split; intros Hsel.
  - apply in_or_app. right. apply in_or_app. right. apply in_or_app. right.
    apply in_or_app. left.
    rewrite (changesets_step_run w o' _ Hsel). cbn [trace].
    apply In_extra_init. apply git_step_cwd.
  - apply in_or_app. right. apply in_or_app. right. apply in_or_app. right.
    apply in_or_app. right. apply in_or_app. left.
    rewrite (tailwind_step_run w o' _ Hsel). cbn [trace].
    apply In_extra_init. rewrite changesets_step_cwd. apply git_step_cwd.
Qed.

Lemma only_version_control_stops_witness :
  res (run changeset_init_fails) = Ret tt
  /\ In (EExec "npx" ["tailwindcss"; "init"; "-p"] "my-app")
        (trace (run changeset_init_fails)).
Proof.
  destruct (only_version_control_stops changeset_init_fails
              {| types := "checkjs"; features := [];
                 extras := ["@changesets/cli"; "tailwindcss"];
                 git := true; packageManager := "npm"; install := true |}
              "my-app" eq_refl eq_refl (or_intror eq_refl)) as (H1 & _ & H3).
  split; [exact H1|exact (H3 eq_refl)].
Defined.

Lemma filter_child_prints ls : filter is_child (map EPrint ls) = [].
Proof. induction ls; [reflexivity|exact IHls]. Qed.

(** X13.  With git chosen and no extra selected, a run whose git children
    succeed spawns, after the install child if install was chosen, exactly
    the three children [git init], [git add -A] and
    [git commit -m "Initial commit"], in this order and in the target
    directory, so it makes one commit; and it completes. *)
Theorem version_control_children w options t :
  res (before_install w (start w)) = Ret options ->
  target w = Some t ->
  git options = true ->
  includes (extras options) "@changesets/cli" = false ->
  includes (extras options) "tailwindcss" = false ->
  git_children_ok w (if install options then 1 else 0) = true ->
  res (run w) = Ret tt
  /\ filter is_child (trace (run w))
     = ((if install options
         then [EExec (packageManager options) ["install"] t] else [])
        ++ [ EExec "git" ["init"] t;
             EExec "git" ["add"; "-A"] t;
             EExec "git" ["commit"; "-m"; "Initial commit"] t ])%list.
Proof.
  intros Hb Ht Hg Hcs Htw Hok.
  destruct (run_after_templates w options Hb t Ht) as [Hres Htr].
  destruct (before_install_ret w options Hb) as (t' & Ht' & _ & _ & Hch & _).
  destruct (install_step_shape w options {| cwd := t; spawned := 0 |})
    as (o' & tr & E & _ & Hchild & _).
  cbn [cwd spawned] in E, Hchild.
  assert (Hk : res (install_step w options {| cwd := t; spawned := 0 |}) = Ret o').
  { rewrite E. reflexivity. }
  destruct (install_step_keeps w options _ o' Hk) as (Hgo & Hex & _).
  set (s1 := {| cwd := t;
                spawned := if install options then 1 else 0 |}) in *.
  rewrite res_bind, E in Hres. cbn [res final] in Hres.
  rewrite trace_bind, E in Htr. cbn [res final trace] in Htr.
  rewrite <- Hex in Hcs, Htw. rewrite <- Hgo in Hg.
  assert (Hgit : git_step w o' s1
                 = mkRes (Ret tt) {| cwd := t; spawned := 3 + spawned s1 |}
                         [ EExec "git" ["init"] t;
                           EExec "git" ["add"; "-A"] t;
                           EExec "git" ["commit"; "-m"; "Initial commit"] t ]).
  { rewrite git_step_run, Hg. cbv zeta. cbn [cwd s1].
    unfold git_children_ok in Hok. cbn [spawned s1].
    destruct (execa_ok w _ "git" ["init"]); [|discriminate Hok].
    destruct (execa_ok w _ "git" ["add"; "-A"]); [|discriminate Hok].
    cbn in Hok. rewrite Hok. reflexivity. }
  split; [rewrite Hres, after_install_res, Hgit; reflexivity|].
  rewrite Htr, !filter_app, Hch, Hchild, after_install_trace, Hgit.
  cbv zeta. cbn [res final trace].
  unfold changesets_step at 1 2. rewrite Hcs. cbn [when].
  unfold tailwind_step at 1 2. rewrite Htw. cbn [when].
  cbn [ret Monad_M m_ret res final trace app filter is_child].
  rewrite filter_app, (report_quiet is_child) by reflexivity.
  rewrite filter_child_prints. reflexivity.
Qed.

Lemma version_control_children_witness :
  res (run happy) = Ret tt
  /\ filter is_child (trace (run happy))
     = [ EExec "npm" ["install"] "my-app";
         EExec "git" ["init"] "my-app";
         EExec "git" ["add"; "-A"] "my-app";
         EExec "git" ["commit"; "-m"; "Initial commit"] "my-app" ].
Proof.
  exact (version_control_children happy
           {| types := "checkjs"; features := []; extras := [];
              git := true; packageManager := "npm"; install := true |}
           "my-app" eq_refl eq_refl eq_refl eq_refl eq_refl eq_refl).
Defined.

Lemma after_install_quiet_install_child w options :
  quiet is_install_child (after_install w options).
Proof. unfold_stages. quiet_auto. Qed.

(** X14.  A run that reaches the install block runs the install command of
    the package manager exactly when install was chosen, then once, in the
    target directory and never again, whether the child succeeds or fails;
    when install was declined no such child is ever spawned. *)
Theorem install_child_once w options t :
  res (before_install w (start w)) = Ret options ->
  target w = Some t ->
  filter is_install_child (trace (run w))
  = if install options
    then [EExec (packageManager options) ["install"] t] else [].
Proof.
  intros Hb Ht.
  destruct (run_after_templates w options Hb t Ht) as [_ Htr].
  rewrite Htr, !filter_app.
  rewrite (before_install_quiet is_install_child) by reflexivity.
  rewrite trace_bind, install_step_run, filter_app. cbn [cwd spawned app].
  destruct (install options).
  - destruct (execa_ok w 0 (packageManager options) ["install"]);
      cbn [res final trace install_failure_events filter is_install_child
           String.eqb Ascii.eqb Bool.eqb app];
      rewrite after_install_quiet_install_child; reflexivity.
  - cbn [res final trace filter app].
    apply after_install_quiet_install_child.
Qed.

Lemma install_child_once_witness :
  filter is_install_child (trace (run install_fails))
  = [EExec "npm" ["install"] "my-app"].
Proof.
  exact (install_child_once install_fails
           {| types := "checkjs"; features := []; extras := [];
              git := true; packageManager := "npm"; install := true |}
           "my-app" eq_refl eq_refl).
Defined.

(** ** Assignments to the map of resolved versions *)

Section ObjSet.

Context {A : Type}.
Implicit Types (k : string) (v : A) (l : list (string * A)).




End ObjSet.




(** ** Where a run acts *)

Lemma confined_bind {A B : Type} (m : M A) (f : A -> M B) :
  confined m -> (forall a, confined (f a)) -> confined (bind m f).
Proof.
  intros Hm Hf s. destruct (Hm s) as [Hc Ht].
  rewrite final_bind, trace_bind, forallb_app, Ht.
  destruct (res (m s)) as [a|c|e]; [|split; [exact Hc|reflexivity]..].
  destruct (Hf a (final (m s))) as [Hc' Ht'].
  rewrite Hc in Hc', Ht'. split; [exact Hc'|exact Ht'].
Qed.

Lemma forallb_in_dir_quiet d tr :
  filter has_dir tr = [] -> forallb (in_dir d) tr = true.
Proof.
  induction tr as [|e tr IH]; [reflexivity|].
  cbn [filter forallb]. unfold has_dir, in_dir.
  destruct (event_dir e); [discriminate|]. exact IH.
Qed.

Lemma confined_quiet {A : Type} (m : M A) :
  stateless m -> quiet has_dir m -> confined m.
Proof.
  intros Hs Hq s. split; [rewrite Hs; reflexivity|].
  apply forallb_in_dir_quiet, Hq.
Qed.

Lemma in_dir_refl_exec c a d : in_dir d (EExec c a d) = true.
Proof. apply String.eqb_refl. Qed.

Lemma in_dir_refl_copy t d : in_dir d (ECopy t d) = true.
Proof. apply String.eqb_refl. Qed.

Lemma confined_generate w options : confined (generate w options).
Proof.
  intros s. rewrite generate_run. split; [reflexivity|].
  cbn [trace forallb]. unfold in_dir. cbn [event_dir].
  rewrite String.eqb_refl. reflexivity.
Qed.

Lemma confined_update_manifest w options : confined (update_manifest w options).
Proof.
  intros s. rewrite update_manifest_run.
  destruct (manifest w) as [m|]; (split; [reflexivity|]);
    cbn [trace forallb]; unfold in_dir at 1; cbn [event_dir];
    rewrite String.eqb_refl; [|reflexivity].
  cbn [andb in_dir event_dir]. rewrite forallb_app.
  rewrite forallb_in_dir_quiet by (apply filter_resolve_events; reflexivity).
  cbn [forallb andb]. unfold in_dir. cbn [event_dir].
  rewrite String.eqb_refl. reflexivity.
Qed.

Lemma confined_copy_base w options : confined (copy_base w options).
Proof.
  intros s. rewrite copy_base_run. split; [reflexivity|].
  cbn [trace forallb]. rewrite in_dir_refl_copy. reflexivity.
Qed.

Lemma confined_install_step w options : confined (install_step w options).
Proof.
  intros s. rewrite install_step_run. unfold install_failure_events.
  destruct (install options); [|split; reflexivity].
  destruct (execa_ok w _ _ _); (split; [reflexivity|]);
    cbn [trace forallb]; rewrite in_dir_refl_exec; reflexivity.
Qed.

Lemma confined_git_step w options : confined (git_step w options).
Proof.
  intros s. split; [apply git_step_cwd|].
  rewrite git_step_run. cbv zeta.
  destruct (git options); [|reflexivity].
  destruct (execa_ok w _ _ _);
    [destruct (execa_ok w _ _ _)|];
    cbn [trace forallb]; rewrite ?in_dir_refl_exec; reflexivity.
Qed.

Lemma forallb_extra_events w s a init tmpl commit b c d e :
  forallb (in_dir (cwd s)) (extra_events w s a init tmpl commit b c d e) = true.
Proof.
  unfold extra_events. cbv zeta.
  destruct (execa_ok w (spawned s) "npx" init);
    [destruct (copy_ok w tmpl (cwd s));
     [destruct (execa_ok w (S (spawned s)) "git" ["add"; "-A"]);
      [destruct (execa_ok w (S (S (spawned s))) "git" ["commit"; "-m"; commit])
      |]|]|];
    cbn [forallb]; rewrite ?in_dir_refl_exec, ?in_dir_refl_copy; reflexivity.
Qed.

Lemma confined_changesets_step w options : confined (changesets_step w options).
Proof.
  intros s. split; [apply changesets_step_cwd|].
  destruct (includes (extras options) "@changesets/cli") eqn:E.
  - rewrite (changesets_step_run w options s E). apply forallb_extra_events.
  - unfold changesets_step. rewrite E. reflexivity.
Qed.

Lemma confined_tailwind_step w options : confined (tailwind_step w options).
Proof.
  intros s. split; [apply tailwind_step_cwd|].
  destruct (includes (extras options) "tailwindcss") eqn:E.
  - rewrite (tailwind_step_run w options s E). apply forallb_extra_events.
  - unfold tailwind_step. rewrite E. reflexivity.
Qed.

Lemma confined_report w options : confined (report w options).
Proof.
  apply confined_quiet; [apply report_stateless|].
  apply report_quiet; reflexivity.
Qed.

Lemma confined_next_steps w options : confined (next_steps w options).
Proof.
  intros s. rewrite next_steps_run. split; [reflexivity|].
  cbn [trace]. induction (next_steps_lines w options (cwd s)); [reflexivity|].
  exact IHl.
Qed.

Lemma confined_scaffold w options : confined (scaffold w options).
Proof.
  unfold scaffold, after_install.
  repeat first
    [ apply confined_generate | apply confined_update_manifest
    | apply confined_copy_base | apply confined_install_step
    | apply confined_git_step | apply confined_changesets_step
    | apply confined_tailwind_step | apply confined_report
    | apply confined_next_steps
    | apply confined_bind; [|intro] ].
Qed.

Lemma confined_after_target w : confined (after_target w).
Proof.
  unfold after_target.
  apply confined_bind.
  - apply confined_quiet; [apply confirm_gate_stateless|].
    apply confirm_gate_quiet. reflexivity.
  - intros _. apply confined_bind.
    + apply confined_quiet; [apply ask_options_stateless|].
      unfold ask_options, group_step, ask. quiet_auto.
    + intros o. apply confined_scaffold.
Qed.

(** X16.  Whatever a run does in a directory, it does in the target
    directory: every call of the generator, every read and write of the
    manifest, every template copy and every child of the run is for the
    directory resolved at the start, which no later step changes. *)
Theorem acts_in_target_only w e d :
  In e (trace (run w)) ->
  event_dir e = Some d ->
  target w = Some d.
Proof.
  rewrite run_trace. intros Hin Hd.
  destruct Hin as [<-|[<-|Hin]]; [discriminate Hd..|].
  apply in_app_or in Hin. destruct Hin as [Hin|Hin].
  - exfalso.
    assert (Hq : In e (filter has_dir (trace (resolve_cwd w (start w))))).
    { apply filter_In. split; [exact Hin|]. unfold has_dir. rewrite Hd.
      reflexivity. }
    rewrite (resolve_cwd_quiet has_dir w eq_refl) in Hq. exact Hq.
  - unfold target.
    destruct (res (resolve_cwd w (start w))) as [[]|c|x]; [|destruct Hin..].
    destruct (confined_after_target w (final (resolve_cwd w (start w))))
      as [_ Hall].
    rewrite forallb_forall in Hall. specialize (Hall e Hin).
    unfold in_dir in Hall. rewrite Hd in Hall.
    apply String.eqb_eq in Hall. rewrite Hall. reflexivity.
Qed.

Lemma acts_in_target_only_witness : target happy = Some "my-app".
Proof.
  apply (acts_in_target_only happy
           (EExec "git" ["commit"; "-m"; "Initial commit"] "my-app") "my-app").
  - vm_compute. tauto.
  - reflexivity.
Defined.

(** ** Spinners *)

Lemma balanced_bind {A B : Type} (m : M A) (f : A -> M B) :
  balanced m -> (forall a, balanced (f a)) -> balanced (bind m f).
Proof.
  intros Hm Hf s. rewrite trace_bind, !filter_app, !length_app, Hm.
  destruct (res (m s)); [rewrite Hf|..]; reflexivity.
Qed.

Lemma balanced_quiet {A : Type} (m : M A) :
  quiet is_spin_start m -> quiet is_spin_stop m -> balanced m.
Proof. intros H1 H2 s. rewrite H1, H2. reflexivity. Qed.

Lemma balanced_update_manifest w options : balanced (update_manifest w options).
Proof.
  intros s. rewrite update_manifest_run.
  destruct (manifest w) as [m|]; [|reflexivity].
  cbn [trace filter is_spin_start is_spin_stop].
  rewrite !filter_app, !filter_resolve_events by reflexivity.
  reflexivity.
Qed.

Lemma balanced_install_step w options : balanced (install_step w options).
Proof.
  intros s. rewrite install_step_run.
  destruct (install options); [|reflexivity].
  destruct (execa_ok w _ _ _); reflexivity.
Qed.

Lemma balanced_extra_events w s a init tmpl commit b c d e :
  List.length (filter is_spin_start (extra_events w s a init tmpl commit b c d e))
  = List.length (filter is_spin_stop (extra_events w s a init tmpl commit b c d e)).
Proof.
  unfold extra_events. cbv zeta.
  destruct (execa_ok w (spawned s) "npx" init); [|reflexivity].
  destruct (copy_ok w tmpl (cwd s)); [|reflexivity].
  destruct (execa_ok w (S (spawned s)) "git" ["add"; "-A"]); [|reflexivity].
  destruct (execa_ok w (S (S (spawned s))) "git" ["commit"; "-m"; commit]);
    reflexivity.
Qed.

Lemma balanced_changesets_step w options : balanced (changesets_step w options).
Proof.
  intros s. destruct (includes (extras options) "@changesets/cli") eqn:E.
  - rewrite (changesets_step_run w options s E). apply balanced_extra_events.
  - unfold changesets_step. rewrite E. reflexivity.
Qed.

Lemma balanced_tailwind_step w options : balanced (tailwind_step w options).
Proof.
  intros s. destruct (includes (extras options) "tailwindcss") eqn:E.
  - rewrite (tailwind_step_run w options s E). apply balanced_extra_events.
  - unfold tailwind_step. rewrite E. reflexivity.
Qed.

Lemma balanced_plain w options :
  balanced (generate w options) /\ balanced (copy_base w options)
  /\ balanced (git_step w options) /\ balanced (report w options)
  /\ balanced (next_steps w options).
Proof.
  repeat split; apply balanced_quiet;
    try (apply generate_quiet; reflexivity);
    try (apply report_quiet; reflexivity);
    unfold copy_base, copy, git_step, next_steps, print; quiet_auto.
Qed.

Lemma balanced_scaffold w options : balanced (scaffold w options).
Proof.
  unfold scaffold, after_install.
  pose proof (balanced_plain w options) as (H1 & H2 & _).
  apply balanced_bind; [exact H1|]. intros _.
  apply balanced_bind; [apply balanced_update_manifest|]. intros _.
  apply balanced_bind; [exact H2|]. intros _.
  apply balanced_bind; [apply balanced_install_step|]. intros o.
  pose proof (balanced_plain w o) as (_ & _ & H3 & H4 & H5).
  apply balanced_bind; [exact H3|]. intros _.
  apply balanced_bind; [apply balanced_changesets_step|]. intros _.
  apply balanced_bind; [apply balanced_tailwind_step|]. intros _.
  apply balanced_bind; [exact H4|]. intros _. exact H5.
Qed.

(** X17.  No spinner is left running: however a run ends, completed,
    exited or rejected, it has stopped as many spinners as it started. *)
Theorem spinners_are_stopped w :
  List.length (filter is_spin_start (trace (run w)))
  = List.length (filter is_spin_stop (trace (run w))).
Proof.
  rewrite run_prelude.
  apply (balanced_bind (prelude w) (scaffold w)).
  - apply balanced_quiet; apply prelude_quiet; reflexivity.
  - apply balanced_scaffold.
Qed.

(** ** The order of a run *)

Lemma after_templates_quiet w options :
  quiet precedes_children (o <- install_step w options ;; after_install w o).
Proof. unfold_stages. quiet_auto. Qed.

(** X18.  A run falls in two parts.  Everything it asks, the call of the
    generator, the requests to the registry, the read and the write of the
    manifest and the copy of the base templates come first, and in that
    part no child is spawned; from the install block on, none of these
    happens again. *)
Theorem children_come_last w :
  exists before after,
    trace (run w) = (before ++ after)%list
    /\ filter is_child before = []
    /\ filter precedes_children after = [].
Proof.
  exists (trace (before_install w (start w))).
  exists (match res (before_install w (start w)) with
          | Ret o =>
              trace ((o' <- install_step w o ;; after_install w o')
                       (final (before_install w (start w))))
          | _ => []
          end).
  split; [rewrite run_stages, trace_bind; reflexivity|].
  split; [apply before_install_quiet; reflexivity|].
  destruct (res (before_install w (start w))); [|reflexivity..].
  apply after_templates_quiet.
Qed.

(** X19.  The version-control block has no handler.  When a run reaches
    it with git chosen and one of its three children fails, the run is
    rejected with that failure; the failing child is the last child of the
    run, so no extra is initialised and no template set other than the
    base one is copied, and the closing message is not shown. *)
Theorem version_control_failure_is_fatal w options t :
  res (before_install w (start w)) = Ret options ->
  target w = Some t ->
  git options = true ->
  let n := if install options then 1 else 0 in
  git_children_ok w n = false ->
  res (run w) = Throw "execa"
  /\ filter is_child (trace (run w))
     = ((if install options
         then [EExec (packageManager options) ["install"] t] else [])
        ++ EExec "git" ["init"] t
           :: (if execa_ok w n "git" ["init"] then
                 EExec "git" ["add"; "-A"] t
                 :: (if execa_ok w (S n) "git" ["add"; "-A"]
                     then [EExec "git" ["commit"; "-m"; "Initial commit"] t]
                     else [])
               else []))%list
  /\ filter is_copy (trace (run w)) = [ECopy (base_template (types options)) t]
  /\ filter is_outro (trace (run w)) = [].
Proof.
  intros Hb Ht Hg n Hk.
  destruct (run_after_templates w options Hb t Ht) as [Hres Htr].
  destruct (before_install_ret w options Hb) as (t' & Ht' & _ & _ & Hch & Hc).
  rewrite Ht in Ht'. injection Ht' as <-.
  rewrite Hres, Htr, !filter_app, Hc, Hch.
  rewrite (before_install_quiet is_outro) by reflexivity.
  rewrite res_bind, trace_bind, !filter_app.
  destruct (install_step_shape w options {| cwd := t; spawned := 0 |})
    as (o' & tr & E & Ho' & Hchild & Hcopy & Houtro).
  rewrite E. cbn [res final trace cwd spawned]. fold n.
  rewrite Hchild, Hcopy, Houtro, after_install_res, after_install_trace.
  assert (Hg' : git o' = true).
  { destruct Ho' as [->|[_ ->]]; exact Hg. }
  rewrite git_step_run, Hg'. cbv zeta. cbn [cwd spawned].
  unfold git_children_ok in Hk.
  destruct (execa_ok w n "git" ["init"]);
    [destruct (execa_ok w (S n) "git" ["add"; "-A"]);
     [destruct (execa_ok w (S (S n)) "git" ["commit"; "-m"; "Initial commit"]);
      [discriminate Hk|]|]|];
    repeat split; reflexivity.
Qed.

Lemma version_control_failure_is_fatal_witness :
  res (run git_missing_with_extra) = Throw "execa"
  /\ filter is_child (trace (run git_missing_with_extra))
     = [EExec "npm" ["install"] "my-app"; EExec "git" ["init"] "my-app"]
  /\ filter is_copy (trace (run git_missing_with_extra))
     = [ECopy "javascript" "my-app"]
  /\ filter is_outro (trace (run git_missing_with_extra)) = [].
Proof.
  exact (version_control_failure_is_fatal git_missing_with_extra
           {| types := "checkjs"; features := []; extras := ["tailwindcss"];
              git := true; packageManager := "npm"; install := true |}
           "my-app" eq_refl eq_refl eq_refl eq_refl).
Defined.
